(** * Tiny-1C thermal camera wrapper: frames, spatial queries and session lifecycle

    A shallow embedding of [examples/tiny_thermal_camera_wrapper.py]
    (class [TinyThermalCamera]) together with the part of numpy it calls.

    Conventions.
    - A 2-D numpy array is a shape [(nrows, ncols)] with its elements in
      row-major order.
    - Raw sensor counts (numpy uint16) are [Z]; Celsius values (float64) are
      read as exact rationals [Q].  Only comparisons and selection of
      elements are performed on them by the wrapper, except for the
      arithmetic mean, which is exact here and rounded in the program.
      NaN does not occur in this reading.
    - A Python exception is the [Raise] outcome of the [result] type. *)

From Stdlib Require Import ZArith QArith Qabs List Bool Lia String Arith PeanoNat.
Import ListNotations.

Set Implicit Arguments.

Close Scope Q_scope.

(** ** Exceptions *)

Inductive exn : Type :=
| ValueError
| IndexError
| RuntimeError (msg : string).

Inductive result (A : Type) : Type :=
| Ok (a : A)
| Raise (e : exn).

Arguments Ok {A} a.
Arguments Raise {A} e.

Definition bind {A B : Type} (m : result A) (k : A -> result B) : result B :=
  match m with
  | Ok a => k a
  | Raise e => Raise e
  end.

Notation "x <- m ;; k" := (bind m (fun x => k))
  (at level 61, m at next level, right associativity).
Notation "' p <- m ;; k" := (bind m (fun p => k))
  (at level 61, p pattern, m at next level, right associativity).

(** ** The numpy operations used by the wrapper *)

Module Np.

Record ndarray (A : Type) : Type := mk_ndarray {
  nrows : nat;
  ncols : nat;
  flat : list A
}.

Arguments mk_ndarray {A} nrows ncols flat.

(** [a.size]: the product of the shape. *)
Definition size {A} (a : ndarray A) : nat := nrows a * ncols a.

(** The buffer of an array holds exactly [size] elements. *)
Definition wf {A} (a : ndarray A) : Prop := List.length (flat a) = size a.

(** The zero-size array that stands for "no frame". *)
Definition empty {A} : ndarray A := mk_ndarray 0 0 [].

(** [np.vectorize(f)(a)] without [otypes]: refuses a size 0 input, and
    otherwise applies [f] to every element and keeps the shape. *)
Definition vectorize {A B} (f : A -> B) (a : ndarray A) : result (ndarray B) :=
  if Nat.eqb (size a) 0 then Raise ValueError
  else Ok (mk_ndarray (nrows a) (ncols a) (map f (flat a))).

Definition Qltb (x y : Q) : bool := negb (Qle_bool y x).

(** The scan behind [np.argmax] and [np.argmin] over the flattened array:
    the running best is replaced only by an element that beats it strictly,
    so the first occurrence wins.  [i] is the index of the head of [l]. *)
Fixpoint scan_from (beats : Q -> Q -> bool) (best : Q) (bi i : nat) (l : list Q)
  : nat * Q :=
  match l with
  | [] => (bi, best)
  | x :: t =>
      if beats x best then scan_from beats x i (S i) t
      else scan_from beats best bi (S i) t
  end.

(** [x] beats the running maximum when it is greater, the running minimum
    when it is smaller. *)
Definition Qgtb (x best : Q) : bool := Qltb best x.

Definition argmax_from : Q -> nat -> nat -> list Q -> nat * Q := scan_from Qgtb.
Definition argmin_from : Q -> nat -> nat -> list Q -> nat * Q := scan_from Qltb.

Definition argmax (a : ndarray Q) : result nat :=
  match flat a with
  | [] => Raise ValueError
  | x :: t => Ok (fst (argmax_from x 0 1 t))
  end.

Definition argmin (a : ndarray Q) : result nat :=
  match flat a with
  | [] => Raise ValueError
  | x :: t => Ok (fst (argmin_from x 0 1 t))
  end.

(** [np.unravel_index(i, shape)] for a 2-D shape: [(row, col)]. *)
Definition unravel_index {A} (i : nat) (a : ndarray A) : result (nat * nat) :=
  if Nat.ltb i (size a) then Ok (i / ncols a, i mod ncols a)
  else Raise ValueError.

(** [a[(r, c)]] with non-negative indices. *)
Definition getitem {A} (a : ndarray A) (rc : nat * nat) : result A :=
  let (r, c) := rc in
  if Nat.ltb r (nrows a) && Nat.ltb c (ncols a) then
    match nth_error (flat a) (r * ncols a + c) with
    | Some v => Ok v
    | None => Raise IndexError
    end
  else Raise IndexError.

Definition pick (beats : Q -> Q -> bool) (m x : Q) : Q := if beats x m then x else m.

Definition Qmax2 : Q -> Q -> Q := pick Qgtb.
Definition Qmin2 : Q -> Q -> Q := pick Qltb.

(** [np.max] and [np.min]: a reduction over all elements, an error on none. *)
Definition amax (a : ndarray Q) : result Q :=
  match flat a with
  | [] => Raise ValueError
  | x :: t => Ok (fold_left Qmax2 t x)
  end.

Definition amin (a : ndarray Q) : result Q :=
  match flat a with
  | [] => Raise ValueError
  | x :: t => Ok (fold_left Qmin2 t x)
  end.

Definition Qsum (l : list Q) : Q := fold_left Qplus l 0%Q.

(** The arithmetic mean of a non-empty list. *)
Definition list_mean (l : list Q) : Q :=
  (Qsum l / inject_Z (Z.of_nat (List.length l)))%Q.

(** [np.mean], [np.median] and [np.std] give NaN with a warning on an empty
    array; the wrapper never reaches them with one ([vectorize] has raised
    before), and that case is an error here. *)
Definition mean (a : ndarray Q) : result Q :=
  match flat a with
  | [] => Raise ValueError
  | _ => Ok (list_mean (flat a))
  end.

Fixpoint insert_sorted (x : Q) (l : list Q) : list Q :=
  match l with
  | [] => [x]
  | y :: t => if Qle_bool x y then x :: l else y :: insert_sorted x t
  end.

Definition sort (l : list Q) : list Q := fold_right insert_sorted [] l.

(** [np.median]: the middle of the sorted values, the mean of the two
    middle ones for an even count. *)
Definition median (a : ndarray Q) : result Q :=
  match flat a with
  | [] => Raise ValueError
  | _ =>
      let s := sort (flat a) in
      let n := List.length s in
      if Nat.even n
      then Ok ((nth (n / 2 - 1) s 0 + nth (n / 2) s 0) / 2)%Q
      else Ok (nth (n / 2) s 0%Q)
  end.

(** The population variance, the square of [np.std]. *)
Definition var (a : ndarray Q) : result Q :=
  match flat a with
  | [] => Raise ValueError
  | _ =>
      let m := list_mean (flat a) in
      Ok (list_mean (map (fun x => ((x - m) * (x - m))%Q) (flat a)))
  end.

End Np.

Export Np.

(** ** The native device layer *)

(** Everything the wrapper does to the outside world, in program order. *)
Inductive event : Type :=
| EvOpen
| EvClose
| EvStartStream
| EvStopStream
| EvGetTemperatureFrame
| EvGetImageFrame
| EvSleep (seconds : nat).

Module Device.

(** Modelled from the spec: the session state of the native [ThermalCamera]
    object of the compiled extension, which is not part of the sources
    (section 3, CameraSession: state in Closed, Opened, Streaming). *)
Inductive session : Type := Closed | Opened | Streaming.

(** Modelled from the spec: the native camera.  [present] tells whether the
    hardware and its driver are there at open time; the two slots are the
    driver-maintained latest frames (section 5), of size zero when no frame
    is ready or the device has no visible-light sensor.  Only the size of the
    image frame matters to the wrapper; its colour channels are not
    represented. *)
Record t : Type := mk {
  state : session;
  present : bool;
  temperature_slot : ndarray Z;
  image_slot : ndarray Z
}.

(** Modelled from the spec: a state transition of the native camera, which
    leaves the hardware and the frame slots alone. *)
Definition with_state (s : session) (d : t) : t :=
  mk s (present d) (temperature_slot d) (image_slot d).

(** Modelled from the spec: native [open()] (section 4.1): Closed to Opened,
    failing when the device is absent, and failing without touching a
    session that is already open. *)
Definition open (d : t) : bool * t :=
  match state d with
  | Closed => if present d then (true, with_state Opened d) else (false, d)
  | _ => (false, d)
  end.

(** Modelled from the spec: native [close()]: any state to Closed. *)
Definition close (d : t) : t := with_state Closed d.

(** Modelled from the spec: native [start_stream()]: Opened to Streaming,
    failing in any other state. *)
Definition start_stream (d : t) : bool * t :=
  match state d with
  | Opened => (true, with_state Streaming d)
  | _ => (false, d)
  end.

(** Modelled from the spec: native [stop_stream()]: Streaming to Opened, and
    harmless in the other states.  The spec gives no return value; the flag
    tells whether a stream was stopped. *)
Definition stop_stream (d : t) : bool * t :=
  match state d with
  | Streaming => (true, with_state Opened d)
  | _ => (false, d)
  end.

(** Modelled from the spec: native [is_streaming()] and [is_open()]. *)
Definition is_streaming (d : t) : bool :=
  match state d with Streaming => true | _ => false end.

Definition is_open (d : t) : bool :=
  match state d with Closed => false | _ => true end.

(** Modelled from the spec: native [get_temperature_frame()] and
    [get_image_frame()] (section 4.2): the latest frame while Streaming,
    the zero-size array otherwise. *)
Definition get_temperature_frame (d : t) : ndarray Z :=
  if is_streaming d then temperature_slot d else empty.

Definition get_image_frame (d : t) : ndarray Z :=
  if is_streaming d then image_slot d else empty.

End Device.

(** ** class TinyThermalCamera: lifecycle *)

(** The object's two lifecycle fields, and the history of what it has done to
    the device and the clock so far. *)
Record TinyThermalCamera : Type := mkCamera {
  _camera : Device.t;
  _is_initialized : bool;
  history : list event
}.

Definition emit (e : event) (self : TinyThermalCamera) : TinyThermalCamera :=
  mkCamera (_camera self) (_is_initialized self) (history self ++ [e]).

Definition set_camera (d : Device.t) (self : TinyThermalCamera) : TinyThermalCamera :=
  mkCamera d (_is_initialized self) (history self).

Definition set_initialized (b : bool) (self : TinyThermalCamera) : TinyThermalCamera :=
  mkCamera (_camera self) b (history self).

(** [self._camera.open()] and its siblings: the native call, recorded. *)
Definition camera_open (self : TinyThermalCamera) : bool * TinyThermalCamera :=
  let (ok, d) := Device.open (_camera self) in
  (ok, set_camera d (emit EvOpen self)).

Definition camera_close (self : TinyThermalCamera) : TinyThermalCamera :=
  set_camera (Device.close (_camera self)) (emit EvClose self).

Definition camera_start_stream (self : TinyThermalCamera) : bool * TinyThermalCamera :=
  let (ok, d) := Device.start_stream (_camera self) in
  (ok, set_camera d (emit EvStartStream self)).

Definition camera_stop_stream (self : TinyThermalCamera) : bool * TinyThermalCamera :=
  let (ok, d) := Device.stop_stream (_camera self) in
  (ok, set_camera d (emit EvStopStream self)).

Definition open (self : TinyThermalCamera) : bool * TinyThermalCamera :=
  if _is_initialized self then (true, self)
  else
    let (ok, self1) := camera_open self in
    if ok then (true, set_initialized true self1)
    else (false, self1).

Definition close (self : TinyThermalCamera) : TinyThermalCamera :=
  if _is_initialized self then
    let self1 :=
      if Device.is_streaming (_camera self)
      then snd (camera_stop_stream self)
      else self in
    let self2 := camera_close self1 in
    set_initialized false self2
  else self.

Definition not_initialized_msg : string := "Camera not initialized. Call open() first.".
Definition not_streaming_msg : string := "Camera not streaming. Call start_streaming() first.".

Definition start_streaming (wait_for_stabilization : bool) (self : TinyThermalCamera)
  : result (bool * TinyThermalCamera) :=
  if negb (_is_initialized self) then Raise (RuntimeError not_initialized_msg)
  else
    let (ok, self1) := camera_start_stream self in
    if ok then
      let self2 := if wait_for_stabilization then emit (EvSleep 5) self1 else self1 in
      Ok (true, self2)
    else Ok (false, self1).

(** The keyword argument left out: [wait_for_stabilization=True]. *)
Definition start_streaming_default : TinyThermalCamera -> result (bool * TinyThermalCamera) :=
  start_streaming true.

Definition stop_streaming (self : TinyThermalCamera) : bool * TinyThermalCamera :=
  camera_stop_stream self.

Definition capture_frame (self : TinyThermalCamera)
  : result ((option (ndarray Z) * option (ndarray Z)) * TinyThermalCamera) :=
  if negb (Device.is_streaming (_camera self)) then Raise (RuntimeError not_streaming_msg)
  else
    let temp_frame := Device.get_temperature_frame (_camera self) in
    let self1 := emit EvGetTemperatureFrame self in
    let image_frame := Device.get_image_frame (_camera self1) in
    let self2 := emit EvGetImageFrame self1 in
    let temp_frame := if Nat.ltb 0 (size temp_frame) then Some temp_frame else None in
    let image_frame := if Nat.ltb 0 (size image_frame) then Some image_frame else None in
    Ok ((temp_frame, image_frame), self2).

(** The properties [is_open] and [is_streaming]. *)
Definition is_open (self : TinyThermalCamera) : bool := _is_initialized self.

Definition is_streaming (self : TinyThermalCamera) : bool :=
  if _is_initialized self then Device.is_streaming (_camera self) else false.

(** The session state a caller observes through the two properties. *)
Definition session_of (self : TinyThermalCamera) : Device.session :=
  if is_open self then
    if is_streaming self then Device.Streaming else Device.Opened
  else Device.Closed.

(** ** class TinyThermalCamera: temperatures *)

Record stats : Type := mkStats {
  stats_min : Q;
  stats_max : Q;
  stats_mean : Q;
  stats_median : Q;
  stats_var : Q;   (* the square of the entry 'std' *)
  stats_range : Q
}.

(** Frame dimensions as the callers read them: [height, width = frame.shape]. *)
Definition width {A} (frame : ndarray A) : Z := Z.of_nat (ncols frame).
Definition height {A} (frame : ndarray A) : Z := Z.of_nat (nrows frame).

(** The element in column [x] of row [y], for coordinates inside the frame. *)
Definition pixel {A} (d : A) (frame : ndarray A) (x y : nat) : A :=
  nth (y * ncols frame + x) (flat frame) d.

(** Modelled from the spec: the payload [(max, min, avg)] of the native
    rectangle and line queries over the sampled temperatures, with the
    unweighted arithmetic mean. *)
Definition max_min_avg (l : list Q) : Q * Q * Q :=
  match l with
  | [] => (0%Q, 0%Q, 0%Q)
  | v :: t => (fold_left Qmax2 t v, fold_left Qmin2 t v, list_mean l)
  end.

Section Temperatures.

(** The calibration function [tiny_thermal_camera.temp_to_celsius] of the
    compiled extension, which is not part of the sources. *)
Variable temp_to_celsius : Z -> Q.

Definition get_temperature_celsius (temp_frame : ndarray Z) : result (ndarray Q) :=
  vectorize temp_to_celsius temp_frame.

Definition find_hotspot (temp_frame : ndarray Z) : result ((nat * nat) * Q) :=
  temp_celsius <- get_temperature_celsius temp_frame ;;
  i <- argmax temp_celsius ;;
  max_idx <- unravel_index i temp_celsius ;;
  let (y, x) := max_idx in
  max_temp <- getitem temp_celsius max_idx ;;
  Ok ((x, y), max_temp).

Definition find_coldspot (temp_frame : ndarray Z) : result ((nat * nat) * Q) :=
  temp_celsius <- get_temperature_celsius temp_frame ;;
  i <- argmin temp_celsius ;;
  min_idx <- unravel_index i temp_celsius ;;
  let (y, x) := min_idx in
  min_temp <- getitem temp_celsius min_idx ;;
  Ok ((x, y), min_temp).

Definition get_temperature_stats (temp_frame : ndarray Z) : result stats :=
  temp_celsius <- get_temperature_celsius temp_frame ;;
  mn <- amin temp_celsius ;;
  mx <- amax temp_celsius ;;
  me <- mean temp_celsius ;;
  md <- median temp_celsius ;;
  sd <- var temp_celsius ;;
  mx' <- amax temp_celsius ;;
  mn' <- amin temp_celsius ;;
  Ok (mkStats mn mx me md sd (mx' - mn')%Q).

(** *** The native TemperatureProcessor *)

(** Modelled from the spec: the bounds check of the native queries,
    [(x, y)] in [[0, width) x [0, height)] (section 3, invariants). *)
Definition in_frame (frame : ndarray Z) (x y : Z) : bool :=
  ((0 <=? x) && (x <? width frame) && (0 <=? y) && (y <? height frame))%Z.

(** Modelled from the spec: the Celsius value of the pixel at [(x, y)] of a
    raw frame, as the native queries report it. *)
Definition celsius_at (frame : ndarray Z) (x y : Z) : Q :=
  temp_to_celsius (pixel 0%Z frame (Z.to_nat x) (Z.to_nat y)).

(** Modelled from the spec: [TemperatureProcessor.get_point_temp] of the
    compiled extension (section 4.4): fails if [(x, y)] is outside the bounds,
    else gives the Celsius value at that pixel.  The value paired with a
    failure is a placeholder that the wrapper drops. *)
Definition get_point_temp (frame : ndarray Z) (x y : Z) : bool * Q :=
  if in_frame frame x y then (true, celsius_at frame x y) else (false, 0%Q).

(** Modelled from the spec: the Celsius values of all pixels of the
    rectangle, row by row. *)
Definition rect_values (frame : ndarray Z) (x y w h : Z) : list Q :=
  flat_map
    (fun r => map (fun c => celsius_at frame (x + Z.of_nat c) (y + Z.of_nat r))
                  (seq 0 (Z.to_nat w)))
    (seq 0 (Z.to_nat h)).

(** Modelled from the spec: [TemperatureProcessor.get_rect_temp] (section
    4.4): fails if [w <= 0], [h <= 0] or the rectangle is not fully contained
    in the frame, else gives (max, min, avg) over all pixels of the rectangle
    with an unweighted arithmetic mean. *)
Definition get_rect_temp (frame : ndarray Z) (x y w h : Z) : bool * Q * Q * Q :=
  if ((0 <? w) && (0 <? h) && (0 <=? x) && (0 <=? y)
      && (x + w <=? width frame) && (y + h <=? height frame))%Z
  then
    let '(mx, mn, avg) := max_min_avg (rect_values frame x y w h) in
    (true, mx, mn, avg)
  else (false, 0%Q, 0%Q, 0%Q).

(** The rasterization rule of the native line query, which the spec leaves
    open: the pixels visited between two endpoints inside the frame. *)
Variable rasterize : Z -> Z -> Z -> Z -> list (Z * Z).

(** Modelled from the spec: [TemperatureProcessor.get_line_temp] (section
    4.4): fails if either endpoint is out of bounds, else gives (max, min,
    avg) over the pixels sampled along the line. *)
Definition get_line_temp (frame : ndarray Z) (x1 y1 x2 y2 : Z) : bool * Q * Q * Q :=
  if in_frame frame x1 y1 && in_frame frame x2 y2
  then
    let '(mx, mn, avg) :=
      max_min_avg (map (fun p => celsius_at frame (fst p) (snd p))
                       (rasterize x1 y1 x2 y2)) in
    (true, mx, mn, avg)
  else (false, 0%Q, 0%Q, 0%Q).

(** *** The wrapper's spatial queries *)

Definition get_point_temperature (temp_frame : ndarray Z) (x y : Z) : option Q :=
  let (success, temp) := get_point_temp temp_frame x y in
  if success then Some temp else None.

Definition get_area_temperature (temp_frame : ndarray Z) (x y w h : Z)
  : option (Q * Q * Q) :=
  let '(success, max_temp, min_temp, avg_temp) := get_rect_temp temp_frame x y w h in
  if success then Some (max_temp, min_temp, avg_temp) else None.

Definition get_line_temperature (temp_frame : ndarray Z) (x1 y1 x2 y2 : Z)
  : option (Q * Q * Q) :=
  let '(success, max_temp, min_temp, avg_temp) := get_line_temp temp_frame x1 y1 x2 y2 in
  if success then Some (max_temp, min_temp, avg_temp) else None.

End Temperatures.

(** ** Specification vocabulary *)

(** What the scan knows after the prefix [pre]: [best] sits at index [bi],
    nothing in the prefix beats it, and it beats everything before [bi]. *)
Definition scanned (beats : Q -> Q -> bool) (pre : list Q) (best : Q) (bi : nat) : Prop :=
  nth_error pre bi = Some best
  /\ (forall k y, nth_error pre k = Some y -> beats y best = false)
  /\ (forall k y, k < bi -> nth_error pre k = Some y -> beats best y = true).

(** The common shape of [find_hotspot] and [find_coldspot]. *)
Definition locate (beats : Q -> Q -> bool) (temp_to_celsius : Z -> Q)
  (temp_frame : ndarray Z) : result ((nat * nat) * Q) :=
  temp_celsius <- get_temperature_celsius temp_to_celsius temp_frame ;;
  i <- match flat temp_celsius with
       | [] => Raise ValueError
       | x :: t => Ok (fst (scan_from beats x 0 1 t))
       end ;;
  idx <- unravel_index i temp_celsius ;;
  let (y, x) := idx in
  v <- getitem temp_celsius idx ;;
  Ok ((x, y), v).

(** [(x', y')] comes strictly before [(x, y)] in row-major order. *)
Definition row_major_before (x' y' x y : nat) : Prop :=
  y' < y \/ (y' = y /\ x' < x).

(** A query region [w] by [h] at [(x, y)] exceeds the frame: a negative
    coordinate, or [x + w > width], or [y + h > height].  A point is the
    region 1 by 1. *)
Definition exceeds (frame : ndarray Z) (x y w h : Z) : Prop :=
  (x < 0 \/ y < 0 \/ x + w > width frame \/ y + h > height frame)%Z.

(** The events of a history that are blocking delays. *)
Definition is_delay (e : event) : bool :=
  match e with EvSleep _ => true | _ => false end.

Definition delays (h : list event) : list event := filter is_delay h.

(** A fresh object, as [__init__] leaves it: the native camera starts Closed. *)
Definition fresh (present : bool) (temp image : ndarray Z) : TinyThermalCamera :=
  mkCamera (Device.mk Device.Closed present temp image) false [].

(** The objects a caller can get to through the public methods, while the
    driver refreshes the latest-frame slots at any moment. *)
Inductive reachable : TinyThermalCamera -> Prop :=
| reach_fresh present temp image : reachable (fresh present temp image)
| reach_open self : reachable self -> reachable (snd (open self))
| reach_close self : reachable self -> reachable (close self)
| reach_start_streaming wait self ok self' :
    reachable self -> start_streaming wait self = Ok (ok, self') -> reachable self'
| reach_stop_streaming self : reachable self -> reachable (snd (stop_streaming self))
| reach_capture_frame self frames self' :
    reachable self -> capture_frame self = Ok (frames, self') -> reachable self'
| reach_new_frames self temp image :
    reachable self ->
    reachable (set_camera (Device.mk (Device.state (_camera self))
                                     (Device.present (_camera self)) temp image) self).

(** ** Sample data *)

(** A calibration for the examples: the count is the temperature in whole
    degrees Celsius. *)
Definition whole_degrees : Z -> Q := inject_Z.

(** The 4 by 3 frame of the spec's example (section 8), three rows of four. *)
Definition example_frame : ndarray Z :=
  mk_ndarray 3 4 [20; 20; 20; 20;
                  20; 90; 20; 20;
                  20; 20; 20; 20]%Z.

Definition example_celsius : list Q :=
  [20; 20; 20; 20;
   20; 90; 20; 20;
   20; 20; 20; 20]%Q.

(** A rasterization for the examples: the two endpoints only. *)
Definition endpoints (x1 y1 x2 y2 : Z) : list (Z * Z) := [(x1, y1); (x2, y2)].

Definition example_device (s : Device.session) : Device.t :=
  Device.mk s true example_frame empty.

(** A wrapper object in each of the three session states, with no history. *)
Definition closed_camera : TinyThermalCamera :=
  mkCamera (example_device Device.Closed) false [].
Definition opened_camera : TinyThermalCamera :=
  mkCamera (example_device Device.Opened) true [].
Definition streaming_camera : TinyThermalCamera :=
  mkCamera (example_device Device.Streaming) true [].

(** ** class TinyThermalCamera: construction and the context manager *)

Definition module_missing_msg : string := "tiny_thermal_camera module not available".
Definition open_failed_msg : string := "Failed to open thermal camera".

(** [TinyThermalCamera()]: refuses to build the object when the extension
    module failed to import; otherwise wraps a new native camera, which
    starts Closed, on the hardware [hw].  [log] is what has been done to the
    device and the clock before. *)
Definition __init__ (module_available : bool) (hw : Device.t) (log : list event)
  : result TinyThermalCamera :=
  if negb module_available then Raise (RuntimeError module_missing_msg)
  else Ok (mkCamera (Device.with_state Device.Closed hw) false log).

(** A method call inside a [with] or [try] block: the outcome together with
    the object as the call leaves it.  The methods of the class raise only in
    their opening guard, before they touch the object. *)
Definition run {A} (m : TinyThermalCamera -> result (A * TinyThermalCamera))
  (self : TinyThermalCamera) : result A * TinyThermalCamera :=
  match m self with
  | Ok (a, self') => (Ok a, self')
  | Raise e => (Raise e, self)
  end.

Definition __enter__ (self : TinyThermalCamera) : result unit * TinyThermalCamera :=
  let (ok, self1) := open self in
  if negb ok then (Raise (RuntimeError open_failed_msg), self1)
  else (Ok tt, self1).

(** [__exit__] closes and returns None, so an exception of the body goes on. *)
Definition __exit__ (self : TinyThermalCamera) : TinyThermalCamera := close self.

(** [with self as camera: body]: no [__exit__] when [__enter__] raises;
    otherwise [__exit__] runs after the body, whether it returned or raised. *)
Definition with_camera {A} (self : TinyThermalCamera)
  (body : TinyThermalCamera -> result A * TinyThermalCamera)
  : result A * TinyThermalCamera :=
  match __enter__ self with
  | (Raise e, self1) => (Raise e, self1)
  | (Ok _, self1) =>
      let (r, self2) := body self1 in
      (r, __exit__ self2)
  end.

(** ** The convenience functions *)

Definition frames : Type := option (ndarray Z) * option (ndarray Z).

(** The body of the [with] block of [quick_capture]: [Some] for the
    [return] inside the block, [None] when the block runs to its end. *)
Definition quick_capture_body (camera : TinyThermalCamera)
  : result (option frames) * TinyThermalCamera :=
  match run start_streaming_default camera with
  | (Raise e, camera1) => (Raise e, camera1)
  | (Ok started, camera1) =>
      if started then
        match run capture_frame camera1 with
        | (Ok fr, camera2) => (Ok (Some fr), camera2)
        | (Raise e, camera2) => (Raise e, camera2)
        end
      else (Ok None, camera1)
  end.

(** [quick_capture()].  Every exception is caught (and printed, which is not
    represented).  Beside the two frames, the native camera and the log as
    the call leaves them. *)
Definition quick_capture (module_available : bool) (hw : Device.t) (log : list event)
  : frames * (Device.t * list event) :=
  match __init__ module_available hw log with
  | Raise _ => ((None, None), (hw, log))
  | Ok camera =>
      let (r, camera') := with_camera camera quick_capture_body in
      let world := (_camera camera', history camera') in
      match r with
      | Ok (Some fr) => (fr, world)
      | Ok None => ((None, None), world)
      | Raise _ => ((None, None), world)
      end
  end.

Section QuickTemperature.

Variable temp_to_celsius : Z -> Q.

(** [quick_temperature_at_point(x, y)].  [hw1] is the hardware when the frame
    is captured, [hw2] the hardware when the second object is built. *)
Definition quick_temperature_at_point (module_available : bool)
  (hw1 hw2 : Device.t) (log : list event) (x y : Z)
  : option Q * (Device.t * list event) :=
  let '((temp_frame, _), (hw1', log1)) := quick_capture module_available hw1 log in
  match temp_frame with
  | Some temp_frame =>
      match __init__ module_available hw2 log1 with
      | Raise _ => (None, (hw2, log1))
      | Ok camera =>
          let (r, camera') :=
            with_camera camera
              (fun camera => (Ok (get_point_temperature temp_to_celsius temp_frame x y),
                              camera)) in
          let world := (_camera camera', history camera') in
          match r with
          | Ok t => (t, world)
          | Raise _ => (None, world)
          end
      end
  | None => (None, (hw1', log1))
  end.

End QuickTemperature.

(** ** thermal_camera_demo.py: the analysis of one frame *)

Section Demo.

Variable temp_to_celsius : Z -> Q.
Variable rasterize : Z -> Z -> Z -> Z -> list (Z * Z).

(** [ThermalCameraDemo.analyze_temperatures]: the three native queries it
    makes, at the coordinates it computes (what it prints is not
    represented). *)
Definition analyze_temperatures (temp_frame : ndarray Z)
  : (bool * Q) * (bool * Q * Q * Q) * (bool * Q * Q * Q) :=
  let (height, width) := (height temp_frame, width temp_frame) in
  let (center_x, center_y) := (width / 2, height / 2)%Z in
  let point := get_point_temp temp_to_celsius temp_frame center_x center_y in
  let rect_size := Z.min 50 (Z.min (width / 4) (height / 4)) in
  let rect_x := (center_x - rect_size / 2)%Z in
  let rect_y := (center_y - rect_size / 2)%Z in
  let rect := get_rect_temp temp_to_celsius temp_frame rect_x rect_y rect_size rect_size in
  let line :=
    get_line_temp temp_to_celsius rasterize temp_frame 0 center_y (width - 1) center_y in
  (point, rect, line).

End Demo.

(** ** Library search paths: the wrapper's and the package's loaders *)

Module Loader.

(** [needle in hay] on strings: [needle] occurs somewhere in [hay]. *)
Fixpoint contains (needle hay : string) : bool :=
  String.prefix needle hay
  || match hay with
     | EmptyString => false
     | String _ t => contains needle t
     end.

(** [s.endswith(suffix)]. *)
Fixpoint endswith (s suffix : string) : bool :=
  String.eqb s suffix
  || match s with
     | EmptyString => false
     | String _ t => endswith t suffix
     end.

(** [os.environ]. *)
Definition environ : Type := string -> option string.

(** [os.environ.get(key, default)] and [os.environ[key] = value]. *)
Definition environ_get (env : environ) (key default : string) : string :=
  match env key with
  | Some v => v
  | None => default
  end.

Definition environ_set (env : environ) (key value : string) : environ :=
  fun k => if String.eqb k key then Some value else env k.

(** What the loaders change: the environment, the directories handed to
    [os.add_dll_directory], and the directory set by [SetDllDirectoryW]. *)
Record os_state : Type := mkOs {
  os_environ : environ;
  dll_directories : list string;
  dll_directory : option string
}.

(** What the loaders read from the machine they run on. *)
Record host : Type := mkHost {
  system : string;                           (* platform.system().lower() *)
  machine : string;                          (* platform.machine() *)
  pathsep : string;                          (* os.pathsep *)
  path_exists : string -> bool;              (* os.path.exists, Path.exists *)
  path_join : string -> list string -> string;  (* os.path.join, Path / *)
  path_absolute : string -> string;          (* str(Path.absolute()) *)
  has_add_dll_directory : bool;              (* hasattr(os, 'add_dll_directory') *)
  add_dll_directory_fails : string -> bool;  (* it raises OSError *)
  set_dll_directory_fails : bool             (* ctypes.windll is missing or raises *)
}.

(** [if dir not in current: os.environ[var] = dir + os.pathsep + current]. *)
Definition prepend_path (h : host) (var dir : string) (st : os_state) : os_state :=
  let current_path := environ_get (os_environ st) var "" in
  if negb (contains dir current_path)
  then mkOs (environ_set (os_environ st) var (dir ++ pathsep h ++ current_path)%string)
            (dll_directories st) (dll_directory st)
  else st.

(** The guarded [os.add_dll_directory(dir)], whose failure is swallowed. *)
Definition add_dll_directory (h : host) (dir : string) (st : os_state) : os_state :=
  if has_add_dll_directory h then
    if add_dll_directory_fails h dir then st
    else mkOs (os_environ st) (dll_directories st ++ [dir]) (dll_directory st)
  else st.

(** The directory the wrapper looks for, by architecture. *)
Definition wrapper_dll_dir (h : host) (module_dir : string) : string :=
  let is_64bit := endswith (machine h) "64" in
  if is_64bit
  then path_join h module_dir ["libs"; "win"; "x64"; "dll"]%string
  else path_join h module_dir ["libs"; "win"; "Win32"; "dll"]%string.

(** [_setup_dll_path()] of the wrapper module; [module_dir] is the directory
    of the module's file. *)
Definition _setup_dll_path (h : host) (module_dir : string) (st : os_state) : os_state :=
  if String.eqb (system h) "windows" then
    let dll_dir := wrapper_dll_dir h module_dir in
    if path_exists h dll_dir then
      let st1 := prepend_path h "PATH" dll_dir st in
      add_dll_directory h dll_dir st1
    else st
  else st.

(** [setup_windows_dlls(module_dir)] of the package. *)
Definition setup_windows_dlls (h : host) (module_dir : string) (st : os_state)
  : bool * os_state :=
  let dll_dir := path_join h module_dir ["dlls"%string] in
  if negb (path_exists h dll_dir) then (false, st)
  else
    let dll_dir_str := path_absolute h dll_dir in
    let st1 := prepend_path h "PATH" dll_dir_str st in
    let st2 := add_dll_directory h dll_dir_str st1 in
    let st3 :=
      if set_dll_directory_fails h then st2
      else mkOs (os_environ st2) (dll_directories st2) (Some dll_dir_str) in
    (true, st3).

(** [setup_linux_libraries(module_dir)] of the package. *)
Definition setup_linux_libraries (h : host) (module_dir : string) (st : os_state)
  : bool * os_state :=
  let lib_dir := path_join h module_dir ["libs"%string] in
  if path_exists h lib_dir then
    let lib_dir_str := path_absolute h lib_dir in
    let current_ld_path := environ_get (os_environ st) "LD_LIBRARY_PATH" "" in
    if negb (contains lib_dir_str current_ld_path) then
      if negb (String.eqb current_ld_path "") then
        (true, mkOs (environ_set (os_environ st) "LD_LIBRARY_PATH"
                       (lib_dir_str ++ pathsep h ++ current_ld_path)%string)
                    (dll_directories st) (dll_directory st))
      else
        (true, mkOs (environ_set (os_environ st) "LD_LIBRARY_PATH" lib_dir_str)
                    (dll_directories st) (dll_directory st))
    else (true, st)
  else (true, st).

(** [setup_library_search_path()] of the package. *)
Definition setup_library_search_path (h : host) (module_dir : string) (st : os_state)
  : bool * os_state :=
  if String.eqb (system h) "windows" then setup_windows_dlls h module_dir st
  else if String.eqb (system h) "linux" then setup_linux_libraries h module_dir st
  else (true, st).

(** Sample machines. *)
Definition sample_join (dir : string) (parts : list string) : string :=
  fold_left (fun acc part => (acc ++ "/" ++ part)%string) parts dir.

Definition windows_host : host :=
  mkHost "windows" "AMD64" ";" (fun _ => true) sample_join (fun p => p)
         true (fun _ => false) false.

Definition linux_host : host :=
  mkHost "linux" "x86_64" ":" (fun _ => true) sample_join (fun p => p)
         false (fun _ => false) true.

Definition empty_os : os_state := mkOs (fun _ => None) [] None.

End Loader.

(** * Properties *)

Unset Implicit Arguments.

(** ** Comparisons on temperatures *)

Lemma Qltb_lt (x y : Q) : Qltb x y = true <-> (x < y)%Q.
Proof.
  unfold Qltb. rewrite negb_true_iff. split; intro H.
  - apply Qnot_le_lt. intro Hle. apply Qle_bool_iff in Hle. congruence.
  - destruct (Qle_bool y x) eqn:E; [|reflexivity].
    apply Qle_bool_iff in E. exfalso. exact (Qlt_not_le _ _ H E).
Qed.

Lemma Qltb_ge (x y : Q) : Qltb x y = false <-> (y <= x)%Q.
Proof.
  unfold Qltb. rewrite negb_false_iff. apply Qle_bool_iff.
Qed.

(** ** The first-occurrence scan *)

Section Scan.

Variable beats : Q -> Q -> bool.

Hypothesis beats_irrefl : forall x, beats x x = false.
Hypothesis beats_keeps : forall b x y,
  beats x b = true -> beats y b = false -> beats y x = false.
Hypothesis beats_passes : forall b x y,
  beats x b = true -> beats y b = false -> beats x y = true.

Lemma scanned_init (x : Q) : scanned beats [x] x 0.
Proof.
  repeat split.
  - intros [|k] y H; simpl in H.
    + injection H as <-. apply beats_irrefl.
    + destruct k; discriminate.
  - intros k y Hk. lia.
Qed.

Lemma nth_error_snoc_inv (pre : list Q) (x y : Q) (k : nat) :
  nth_error (pre ++ [x]) k = Some y ->
  (k < List.length pre /\ nth_error pre k = Some y) \/ (k = List.length pre /\ y = x).
Proof.
  intro H. destruct (Nat.lt_ge_cases k (List.length pre)) as [Hlt|Hge].
  - left. split; [assumption|]. now rewrite nth_error_app1 in H.
  - right. rewrite nth_error_app2 in H by assumption.
    destruct (k - List.length pre) eqn:E; simpl in H.
    + split; [lia | congruence].
    + destruct n; discriminate.
Qed.

Lemma scanned_step (pre : list Q) (best x : Q) (bi : nat) :
  scanned beats pre best bi ->
  if beats x best
  then scanned beats (pre ++ [x]) x (List.length pre)
  else scanned beats (pre ++ [x]) best bi.
Proof.
  intros (Hat & Hall & Hbefore).
  assert (Hbi : bi < List.length pre)
    by (apply nth_error_Some; congruence).
  destruct (beats x best) eqn:E; repeat split.
  - rewrite nth_error_app2 by lia. now rewrite Nat.sub_diag.
  - intros k y H. apply nth_error_snoc_inv in H as [[_ H]|[_ ->]].
    + eapply beats_keeps; eauto.
    + apply beats_irrefl.
  - intros k y Hk H. apply nth_error_snoc_inv in H as [[_ H]|[-> _]]; [|lia].
    eapply beats_passes; eauto.
  - now rewrite nth_error_app1.
  - intros k y H. apply nth_error_snoc_inv in H as [[_ H]|[_ ->]]; eauto.
  - intros k y Hk H. apply nth_error_snoc_inv in H as [[_ H]|[-> _]]; [eauto|lia].
Qed.

Lemma scan_from_scanned (l pre : list Q) (best : Q) (bi : nat) :
  scanned beats pre best bi ->
  scanned beats (pre ++ l)
          (snd (scan_from beats best bi (List.length pre) l))
          (fst (scan_from beats best bi (List.length pre) l)).
Proof.
  revert pre best bi. induction l as [|x t IH]; intros pre best bi H.
  - simpl. now rewrite app_nil_r.
  - simpl. pose proof (scanned_step pre best x bi H) as Hstep.
    replace (pre ++ x :: t) with ((pre ++ [x]) ++ t)
      by (now rewrite <- app_assoc).
    replace (S (List.length pre)) with (List.length (pre ++ [x]))
      by (rewrite length_app; simpl; lia).
    destruct (beats x best); now apply IH.
Qed.

Lemma scan_from_fold (l : list Q) (best : Q) (bi i : nat) :
  snd (scan_from beats best bi i l) = fold_left (pick beats) l best.
Proof.
  revert best bi i. induction l as [|x t IH]; intros best bi i; simpl.
  - reflexivity.
  - unfold pick at 2. destruct (beats x best); apply IH.
Qed.

End Scan.

Lemma Qgtb_irrefl (x : Q) : Qgtb x x = false.
Proof. apply Qltb_ge. apply Qle_refl. Qed.

Lemma Qgtb_keeps (b x y : Q) : Qgtb x b = true -> Qgtb y b = false -> Qgtb y x = false.
Proof.
  unfold Qgtb. rewrite Qltb_lt, !Qltb_ge. intros H1 H2.
  apply Qlt_le_weak. eapply Qle_lt_trans; eauto.
Qed.

Lemma Qgtb_passes (b x y : Q) : Qgtb x b = true -> Qgtb y b = false -> Qgtb x y = true.
Proof.
  unfold Qgtb. rewrite !Qltb_lt, Qltb_ge. intros H1 H2.
  eapply Qle_lt_trans; eauto.
Qed.

Lemma Qltb_irrefl (x : Q) : Qltb x x = false.
Proof. apply Qltb_ge. apply Qle_refl. Qed.

Lemma Qltb_keeps (b x y : Q) : Qltb x b = true -> Qltb y b = false -> Qltb y x = false.
Proof.
  rewrite Qltb_lt, !Qltb_ge. intros H1 H2.
  apply Qlt_le_weak. eapply Qlt_le_trans; eauto.
Qed.

Lemma Qltb_passes (b x y : Q) : Qltb x b = true -> Qltb y b = false -> Qltb x y = true.
Proof.
  rewrite !Qltb_lt, Qltb_ge. intros H1 H2.
  eapply Qlt_le_trans; eauto.
Qed.

(** ** Locating an extreme pixel *)

Lemma find_hotspot_locate (conv : Z -> Q) (f : ndarray Z) :
  find_hotspot conv f = locate Qgtb conv f.
Proof. reflexivity. Qed.

Lemma find_coldspot_locate (conv : Z -> Q) (f : ndarray Z) :
  find_coldspot conv f = locate Qltb conv f.
Proof. reflexivity. Qed.

Lemma get_temperature_celsius_shape (conv : Z -> Q) (f : ndarray Z) :
  0 < size f ->
  exists c, get_temperature_celsius conv f = Ok c
            /\ nrows c = nrows f /\ ncols c = ncols f
            /\ flat c = map conv (flat f).
Proof.
  intro Hpos. unfold get_temperature_celsius, vectorize.
  destruct (Nat.eqb_spec (size f) 0) as [E|_]; [lia|].
  eexists. repeat split.
Qed.

Lemma get_temperature_celsius_empty (conv : Z -> Q) (f : ndarray Z) :
  size f = 0 -> get_temperature_celsius conv f = Raise ValueError.
Proof.
  intro E. unfold get_temperature_celsius, vectorize. now rewrite E.
Qed.

(** The frame-wide conversion on a frame with at least one pixel: the same
    shape, and pixel by pixel the calibration of the raw count. *)
Lemma get_temperature_celsius_elementwise (conv : Z -> Q) (f : ndarray Z) :
  wf f -> 0 < size f ->
  exists c, get_temperature_celsius conv f = Ok c
            /\ nrows c = nrows f /\ ncols c = ncols f /\ wf c
            /\ forall x y, pixel (conv 0%Z) c x y = conv (pixel 0%Z f x y).
Proof.
  intros Hwf Hpos.
  destruct (get_temperature_celsius_shape conv f Hpos) as (c & Hc & Hr & Hcol & Hflat).
  exists c. repeat split; try assumption.
  - unfold wf, size in *. now rewrite Hflat, length_map, Hr, Hcol.
  - intros x y. unfold pixel. rewrite Hflat, Hcol. apply map_nth.
Qed.

Lemma nth_error_map_nth {A B} (g : A -> B) (l : list A) (d : A) (k : nat) :
  k < List.length l -> nth_error (map g l) k = Some (g (nth k l d)).
Proof.
  intro Hk. rewrite nth_error_map, (nth_error_nth' l d Hk). reflexivity.
Qed.

Lemma row_major_index (nc x y x' y' : nat) :
  x < nc -> x' < nc -> row_major_before x' y' x y -> y' * nc + x' < y * nc + x.
Proof.
  intros Hx Hx' [Hlt|[-> Hlt]]; [nia|lia].
Qed.

Section Locate.

Variable beats : Q -> Q -> bool.
Hypothesis beats_irrefl : forall x, beats x x = false.
Hypothesis beats_keeps : forall b x y,
  beats x b = true -> beats y b = false -> beats y x = false.
Hypothesis beats_passes : forall b x y,
  beats x b = true -> beats y b = false -> beats x y = true.

Variable conv : Z -> Q.

Lemma locate_spec (f : ndarray Z) :
  wf f -> 0 < size f ->
  exists x y v hd tl,
    locate beats conv f = Ok ((x, y), v)
    /\ x < ncols f /\ y < nrows f
    /\ v = conv (pixel 0%Z f x y)
    /\ map conv (flat f) = hd :: tl /\ v = fold_left (pick beats) tl hd
    /\ (forall x' y', x' < ncols f -> y' < nrows f ->
          beats (conv (pixel 0%Z f x' y')) v = false)
    /\ (forall x' y', x' < ncols f -> y' < nrows f ->
          row_major_before x' y' x y ->
          beats v (conv (pixel 0%Z f x' y')) = true).
Proof.
  intros Hwf Hpos. unfold wf in Hwf.
  destruct (get_temperature_celsius_shape conv f Hpos) as (c & Hc & Hr & Hcol & Hflat).
  assert (Hnc : 0 < ncols f) by (unfold size in Hpos; nia).
  destruct (map conv (flat f)) as [|hd tl] eqn:Emap.
  { apply (f_equal (@List.length Q)) in Emap. rewrite length_map in Emap.
    simpl in Emap. lia. }
  pose proof (scan_from_scanned beats beats_irrefl beats_keeps beats_passes
                tl [hd] hd 0 (scanned_init beats beats_irrefl hd)) as Hs.
  simpl List.length in Hs. simpl app in Hs.
  pose proof (scan_from_fold beats tl hd 0 1) as Hfold.
  destruct (scan_from beats hd 0 1 tl) as [j v] eqn:Escan.
  simpl in Hs, Hfold. destruct Hs as (Hat & Hall & Hbefore).
  assert (Hj : j < size f).
  { rewrite <- Hwf, <- (length_map conv), Emap.
    apply nth_error_Some. congruence. }
  assert (Hdiv : j / ncols f < nrows f).
  { apply Nat.Div0.div_lt_upper_bound. unfold size in Hj. lia. }
  assert (Hmod : j mod ncols f < ncols f) by (apply Nat.mod_upper_bound; lia).
  assert (Hidx : j / ncols f * ncols f + j mod ncols f = j).
  { pose proof (Nat.div_mod_eq j (ncols f)). lia. }
  assert (Hpix : forall x' y', x' < ncols f -> y' < nrows f ->
            nth_error (hd :: tl) (y' * ncols f + x')
            = Some (conv (pixel 0%Z f x' y'))).
  { intros x' y' Hx' Hy'. rewrite <- Emap. unfold pixel.
    apply nth_error_map_nth. rewrite Hwf. unfold size. nia. }
  exists (j mod ncols f), (j / ncols f), v, hd, tl.
  split.
  { unfold locate. rewrite Hc. simpl. rewrite Hflat, Escan. simpl.
    unfold unravel_index, size. rewrite Hr, Hcol.
    destruct (Nat.ltb_spec j (nrows f * ncols f)) as [_|Hge];
      [|unfold size in Hj; lia].
    simpl. rewrite Hr, Hcol, Hflat.
    destruct (Nat.ltb_spec (j / ncols f) (nrows f)) as [_|?]; [|lia].
    destruct (Nat.ltb_spec (j mod ncols f) (ncols f)) as [_|?]; [|lia].
    simpl andb. cbv iota. rewrite Hidx, Hat. reflexivity. }
  repeat split; try assumption.
  - rewrite <- Hidx, (Hpix _ _ Hmod Hdiv) in Hat. congruence.
  - intros x' y' Hx' Hy'. eapply Hall. apply (Hpix _ _ Hx' Hy').
  - intros x' y' Hx' Hy' Hrm.
    apply (Hbefore (y' * ncols f + x')); [|apply (Hpix _ _ Hx' Hy')].
    rewrite <- Hidx. now apply row_major_index.
Qed.

End Locate.

Lemma get_temperature_stats_nonempty (conv : Z -> Q) (f : ndarray Z) (hd : Q) (tl : list Q) :
  0 < size f -> map conv (flat f) = hd :: tl ->
  exists st, get_temperature_stats conv f = Ok st
             /\ stats_max st = fold_left Qmax2 tl hd
             /\ stats_min st = fold_left Qmin2 tl hd
             /\ stats_range st = (fold_left Qmax2 tl hd - fold_left Qmin2 tl hd)%Q.
Proof.
  intros Hpos Emap.
  destruct (get_temperature_celsius_shape conv f Hpos) as (c & Hc & _ & _ & Hflat).
  rewrite Emap in Hflat.
  unfold get_temperature_stats. rewrite Hc. cbn [bind].
  unfold amin, amax, mean, median, var. rewrite Hflat. cbn [bind].
  destruct (Nat.even (List.length (sort (hd :: tl)))); cbn [bind];
    eexists; repeat split.
Qed.

(** C1. On a frame with at least one pixel, [find_hotspot] and
    [find_coldspot] return, and the temperature they return is the entry
    'max', respectively 'min', of [get_temperature_stats] on the same frame.
    On a zero-size frame all three raise ValueError. *)
Theorem hotspot_coldspot_match_stats (temp_to_celsius : Z -> Q) (frame : ndarray Z) :
  wf frame ->
  (size frame = 0
   /\ find_hotspot temp_to_celsius frame = Raise ValueError
   /\ find_coldspot temp_to_celsius frame = Raise ValueError
   /\ get_temperature_stats temp_to_celsius frame = Raise ValueError)
  \/
  (exists hot max_temp cold min_temp st,
     find_hotspot temp_to_celsius frame = Ok (hot, max_temp)
     /\ find_coldspot temp_to_celsius frame = Ok (cold, min_temp)
     /\ get_temperature_stats temp_to_celsius frame = Ok st
     /\ max_temp = stats_max st
     /\ min_temp = stats_min st).
Proof.
  intro Hwf. destruct (Nat.eq_dec (size frame) 0) as [E|Hne].
  - left. split; [assumption|].
    unfold find_hotspot, find_coldspot, get_temperature_stats.
    rewrite (get_temperature_celsius_empty temp_to_celsius frame E).
    repeat split.
  - right. assert (Hpos : 0 < size frame) by lia.
    destruct (locate_spec Qgtb Qgtb_irrefl Qgtb_keeps Qgtb_passes
                temp_to_celsius frame Hwf Hpos)
      as (x & y & v & hd & tl & Hhot & _ & _ & _ & Emap & Hv & _).
    destruct (locate_spec Qltb Qltb_irrefl Qltb_keeps Qltb_passes
                temp_to_celsius frame Hwf Hpos)
      as (x' & y' & v' & hd' & tl' & Hcold & _ & _ & _ & Emap' & Hv' & _).
    rewrite Emap in Emap'. injection Emap' as <- <-.
    destruct (get_temperature_stats_nonempty temp_to_celsius frame hd tl Hpos Emap)
      as (st & Hst & Hmax & Hmin & _).
    exists (x, y), v, (x', y'), v', st.
    rewrite find_hotspot_locate, find_coldspot_locate.
    unfold Qmax2, Qmin2 in *.
    repeat split; try assumption; congruence.
Qed.

(** C3. On a well-formed frame with at least one pixel, [find_hotspot]
    returns a location inside the frame and the Celsius value of that pixel;
    no pixel is warmer, and every pixel that comes before the location in
    row-major order (a lower [y], or the same [y] and a lower [x]) is strictly
    colder, so the location is the first occurrence of the maximum.
    [find_coldspot] does the same for the minimum. *)
Theorem hotspot_coldspot_first_extreme (temp_to_celsius : Z -> Q) (frame : ndarray Z) :
  wf frame -> 0 < size frame ->
  (exists x y max_temp,
     find_hotspot temp_to_celsius frame = Ok ((x, y), max_temp)
     /\ x < ncols frame /\ y < nrows frame
     /\ max_temp = temp_to_celsius (pixel 0%Z frame x y)
     /\ (forall x' y', x' < ncols frame -> y' < nrows frame ->
           (temp_to_celsius (pixel 0%Z frame x' y') <= max_temp)%Q)
     /\ (forall x' y', x' < ncols frame -> y' < nrows frame ->
           row_major_before x' y' x y ->
           (temp_to_celsius (pixel 0%Z frame x' y') < max_temp)%Q))
  /\
  (exists x y min_temp,
     find_coldspot temp_to_celsius frame = Ok ((x, y), min_temp)
     /\ x < ncols frame /\ y < nrows frame
     /\ min_temp = temp_to_celsius (pixel 0%Z frame x y)
     /\ (forall x' y', x' < ncols frame -> y' < nrows frame ->
           (min_temp <= temp_to_celsius (pixel 0%Z frame x' y'))%Q)
     /\ (forall x' y', x' < ncols frame -> y' < nrows frame ->
           row_major_before x' y' x y ->
           (min_temp < temp_to_celsius (pixel 0%Z frame x' y'))%Q)).
Proof.
  intros Hwf Hpos. split.
  - destruct (locate_spec Qgtb Qgtb_irrefl Qgtb_keeps Qgtb_passes
                temp_to_celsius frame Hwf Hpos)
      as (x & y & v & hd & tl & Hloc & Hx & Hy & Hv & _ & _ & Hall & Hfirst).
    exists x, y, v. rewrite find_hotspot_locate.
    repeat split; try assumption.
    + intros x' y' Hx' Hy'. apply Qltb_ge. exact (Hall x' y' Hx' Hy').
    + intros x' y' Hx' Hy' Hb. apply Qltb_lt. exact (Hfirst x' y' Hx' Hy' Hb).
  - destruct (locate_spec Qltb Qltb_irrefl Qltb_keeps Qltb_passes
                temp_to_celsius frame Hwf Hpos)
      as (x & y & v & hd & tl & Hloc & Hx & Hy & Hv & _ & _ & Hall & Hfirst).
    exists x, y, v. rewrite find_coldspot_locate.
    repeat split; try assumption.
    + intros x' y' Hx' Hy'. apply Qltb_ge. exact (Hall x' y' Hx' Hy').
    + intros x' y' Hx' Hy' Hb. apply Qltb_lt. exact (Hfirst x' y' Hx' Hy' Hb).
Qed.

Lemma hotspot_coldspot_match_stats_example :
  wf example_frame
  /\ exists hot max_temp cold min_temp st,
       find_hotspot whole_degrees example_frame = Ok (hot, max_temp)
       /\ find_coldspot whole_degrees example_frame = Ok (cold, min_temp)
       /\ get_temperature_stats whole_degrees example_frame = Ok st
       /\ max_temp = stats_max st
       /\ min_temp = stats_min st.
Proof.
  split; [reflexivity|].
  destruct (hotspot_coldspot_match_stats whole_degrees example_frame eq_refl)
    as [[E _]|H]; [discriminate E | exact H].
Defined.

Lemma hotspot_coldspot_first_extreme_example :
  wf example_frame /\ 0 < size example_frame
  /\ exists x y max_temp,
       find_hotspot whole_degrees example_frame = Ok ((x, y), max_temp)
       /\ x < 4 /\ y < 3.
Proof.
  split; [reflexivity|]. split; [vm_compute; lia|].
  destruct (hotspot_coldspot_first_extreme whole_degrees example_frame eq_refl)
    as [(x & y & v & H & Hx & Hy & _) _]; [vm_compute; lia|].
  exists x, y, v. repeat split; assumption.
Defined.

(** Ties: the first of three pixels at 7 is the hotspot, the first of two
    pixels at 0 the coldspot. *)
Example hotspot_first_of_ties :
  find_hotspot whole_degrees (mk_ndarray 2 3 [1; 7; 7; 7; 0; 0]%Z) = Ok ((1, 0), 7%Q)
  /\ find_coldspot whole_degrees (mk_ndarray 2 3 [1; 7; 7; 7; 0; 0]%Z) = Ok ((1, 1), 0%Q).
Proof. split; reflexivity. Qed.

Example hotspot_of_empty_frame :
  find_hotspot whole_degrees empty = Raise ValueError.
Proof. reflexivity. Qed.

(** ** The example frame of the spec *)

Lemma celsius_at_nth (conv : Z -> Q) (f : ndarray Z) (x y : nat) :
  celsius_at conv f (Z.of_nat x) (Z.of_nat y)
  = nth (y * ncols f + x) (map conv (flat f)) (conv 0%Z).
Proof.
  unfold celsius_at, pixel. rewrite !Nat2Z.id. symmetry. apply map_nth.
Qed.

Lemma rect_values_full_example (conv : Z -> Q) (f : ndarray Z) :
  nrows f = 3 -> ncols f = 4 -> map conv (flat f) = example_celsius ->
  rect_values conv f 0 0 4 3 = example_celsius.
Proof.
  intros Hr Hc Hmap. unfold rect_values.
  change (Z.to_nat 4) with 4. change (Z.to_nat 3) with 3.
  cbn [seq flat_map map app Z.add Z.of_nat].
  change 0%Z with (Z.of_nat 0).
  change (Z.pos (Pos.of_succ_nat 0)) with (Z.of_nat 1).
  change (Z.pos (Pos.of_succ_nat 1)) with (Z.of_nat 2).
  change (Z.pos (Pos.of_succ_nat 2)) with (Z.of_nat 3).
  rewrite !celsius_at_nth, Hc, Hmap. reflexivity.
Qed.

(** C2, as the code has it. Whatever the calibration, on a raw frame of
    three rows of four whose Celsius values are
    [[20,20,20,20],[20,90,20,20],[20,20,20,20]], [find_hotspot] returns
    location (1, 1) with value 90, and the rectangle query over the full
    frame (x=0, y=0, w=4, h=3) succeeds with max 90, min 20 and an average
    equal to 310/12 = 155/6, about 25.83. *)
Theorem example_frame_hotspot_and_rect
  (temp_to_celsius : Z -> Q) (frame : ndarray Z) :
  nrows frame = 3 -> ncols frame = 4 ->
  map temp_to_celsius (flat frame) = example_celsius ->
  find_hotspot temp_to_celsius frame = Ok ((1, 1), 90%Q)
  /\ exists avg,
       get_rect_temp temp_to_celsius frame 0 0 4 3 = (true, 90%Q, 20%Q, avg)
       /\ get_area_temperature temp_to_celsius frame 0 0 4 3 = Some (90%Q, 20%Q, avg)
       /\ (avg == 155 # 6)%Q.
Proof.
  intros Hr Hc Hmap. split.
  - unfold find_hotspot, get_temperature_celsius, vectorize, size.
    rewrite Hr, Hc, Hmap. reflexivity.
  - exists (310 # 12)%Q.
    assert (Hrect : get_rect_temp temp_to_celsius frame 0 0 4 3
                    = (true, 90%Q, 20%Q, (310 # 12)%Q)).
    { unfold get_rect_temp, width, height.
      rewrite (rect_values_full_example temp_to_celsius frame Hr Hc Hmap), Hr, Hc.
      reflexivity. }
    split; [exact Hrect|]. split.
    + unfold get_area_temperature. rewrite Hrect. reflexivity.
    + reflexivity.
Qed.

Lemma example_frame_hotspot_and_rect_witness :
  find_hotspot whole_degrees example_frame = Ok ((1, 1), 90%Q)
  /\ exists avg,
       get_rect_temp whole_degrees example_frame 0 0 4 3 = (true, 90%Q, 20%Q, avg)
       /\ get_area_temperature whole_degrees example_frame 0 0 4 3
          = Some (90%Q, 20%Q, avg)
       /\ (avg == 155 # 6)%Q.
Proof.
  apply (example_frame_hotspot_and_rect whole_degrees example_frame);
    reflexivity.
Defined.

(** C2 as stated fails: on the example frame the full-frame rectangle query
    gives the average 310/12, which is more than one degree away from 27.5. *)
Lemma example_frame_average_is_not_27_5 :
  get_rect_temp whole_degrees example_frame 0 0 4 3
  = (true, 90%Q, 20%Q, (310 # 12)%Q)
  /\ (1 < Qabs ((310 # 12) - (275 # 10)))%Q.
Proof.
  split; reflexivity.
Qed.

(** ** Queries that exceed the frame *)

Lemma in_frame_exceeds (frame : ndarray Z) (x y : Z) :
  exceeds frame x y 1 1 -> in_frame frame x y = false.
Proof.
  unfold exceeds, in_frame. intro H.
  destruct (Z.leb_spec 0 x), (Z.ltb_spec x (width frame)),
    (Z.leb_spec 0 y), (Z.ltb_spec y (height frame)); simpl; try reflexivity.
  lia.
Qed.

(** C5. A point query at a position outside the frame, a rectangle query
    with a negative corner coordinate or with [x + w > width] or
    [y + h > height], and a line query with an endpoint outside the frame all
    come back from the native processor with success false, and the wrapper
    turns each of them into [None]: no temperature is handed to the caller. *)
Theorem queries_exceeding_frame_fail
  (temp_to_celsius : Z -> Q) (rasterize : Z -> Z -> Z -> Z -> list (Z * Z))
  (frame : ndarray Z) :
  (forall x y, exceeds frame x y 1 1 ->
     fst (get_point_temp temp_to_celsius frame x y) = false
     /\ get_point_temperature temp_to_celsius frame x y = None)
  /\ (forall x y w h, exceeds frame x y w h ->
        fst (fst (fst (get_rect_temp temp_to_celsius frame x y w h))) = false
        /\ get_area_temperature temp_to_celsius frame x y w h = None)
  /\ (forall x1 y1 x2 y2,
        exceeds frame x1 y1 1 1 \/ exceeds frame x2 y2 1 1 ->
        fst (fst (fst (get_line_temp temp_to_celsius rasterize frame x1 y1 x2 y2)))
        = false
        /\ get_line_temperature temp_to_celsius rasterize frame x1 y1 x2 y2 = None).
Proof.
  split; [|split].
  - intros x y H. unfold get_point_temperature, get_point_temp.
    rewrite (in_frame_exceeds frame x y H). split; reflexivity.
  - intros x y w h H. unfold get_area_temperature, get_rect_temp.
    assert (E : ((0 <? w) && (0 <? h) && (0 <=? x) && (0 <=? y)
                 && (x + w <=? width frame) && (y + h <=? height frame))%Z = false).
    { unfold exceeds in H.
      destruct (Z.ltb_spec 0 w), (Z.ltb_spec 0 h), (Z.leb_spec 0 x),
        (Z.leb_spec 0 y), (Z.leb_spec (x + w) (width frame)),
        (Z.leb_spec (y + h) (height frame)); simpl; try reflexivity.
      lia. }
    rewrite E. split; reflexivity.
  - intros x1 y1 x2 y2 H. unfold get_line_temperature, get_line_temp.
    assert (E : in_frame frame x1 y1 && in_frame frame x2 y2 = false).
    { destruct H as [H|H]; rewrite (in_frame_exceeds _ _ _ H).
      - reflexivity.
      - apply andb_false_r. }
    rewrite E. split; reflexivity.
Qed.

Lemma queries_exceeding_frame_fail_example :
  exceeds example_frame 4 1 1 1
  /\ get_point_temperature whole_degrees example_frame 4 1 = None
  /\ exceeds example_frame 2 0 3 3
  /\ get_area_temperature whole_degrees example_frame 2 0 3 3 = None
  /\ exceeds example_frame 0 (-1) 1 1
  /\ get_line_temperature whole_degrees endpoints example_frame 0 0 0 (-1) = None.
Proof.
  pose proof (queries_exceeding_frame_fail whole_degrees endpoints example_frame)
    as (Hpoint & Hrect & Hline).
  assert (E1 : exceeds example_frame 4 1 1 1)
    by (unfold exceeds; right; right; left; reflexivity).
  assert (E2 : exceeds example_frame 2 0 3 3)
    by (unfold exceeds; right; right; left; reflexivity).
  assert (E3 : exceeds example_frame 0 (-1) 1 1)
    by (unfold exceeds; right; left; reflexivity).
  exact (conj E1 (conj (proj2 (Hpoint 4%Z 1%Z E1))
          (conj E2 (conj (proj2 (Hrect 2%Z 0%Z 3%Z 3%Z E2))
            (conj E3 (proj2 (Hline 0%Z 0%Z 0%Z (-1)%Z (or_intror E3)))))))).
Defined.

(** ** Session lifecycle *)

Lemma session_of_Closed (self : TinyThermalCamera) :
  session_of self = Device.Closed <-> _is_initialized self = false.
Proof.
  unfold session_of, is_open, is_streaming.
  destruct (_is_initialized self); [|tauto].
  destruct (Device.is_streaming (_camera self)); split; discriminate.
Qed.

Lemma session_of_Streaming (self : TinyThermalCamera) :
  session_of self = Device.Streaming <->
  _is_initialized self = true /\ Device.is_streaming (_camera self) = true.
Proof.
  unfold session_of, is_open, is_streaming.
  destruct (_is_initialized self), (Device.is_streaming (_camera self));
    split; try discriminate; intuition discriminate.
Qed.

Lemma session_of_Opened (self : TinyThermalCamera) :
  session_of self = Device.Opened <->
  _is_initialized self = true /\ Device.is_streaming (_camera self) = false.
Proof.
  unfold session_of, is_open, is_streaming.
  destruct (_is_initialized self), (Device.is_streaming (_camera self));
    split; try discriminate; intuition discriminate.
Qed.

Lemma close_uninitialized (self : TinyThermalCamera) :
  _is_initialized self = false -> close self = self.
Proof. intro H. unfold close. now rewrite H. Qed.

Lemma close_clears_flag (self : TinyThermalCamera) :
  _is_initialized (close self) = false.
Proof.
  unfold close. destruct (_is_initialized self) eqn:E; [reflexivity | exact E].
Qed.

(** The wrapper's flag and the native session never disagree about an open
    session: whenever the object is not initialized, the device is Closed. *)
Lemma reachable_uninitialized_closed (self : TinyThermalCamera) :
  reachable self ->
  _is_initialized self = false -> Device.state (_camera self) = Device.Closed.
Proof.
  induction 1 as [p t i | self _ IH | self _ IH | wait self ok self' _ IH E
                  | self _ IH | self frames self' _ IH E | self t i _ IH];
    intro Hi.
  - reflexivity.
  - unfold open, camera_open in *.
    destruct (_is_initialized self) eqn:Ei; [simpl in Hi; congruence|].
    unfold Device.open in *. rewrite (IH eq_refl) in *.
    destruct (Device.present (_camera self)); simpl in *;
      [discriminate Hi | exact (IH eq_refl)].
  - unfold close. destruct (_is_initialized self) eqn:Ei; [reflexivity | auto].
  - unfold start_streaming in E.
    destruct (_is_initialized self) eqn:Ei; [|discriminate E].
    cbn [negb] in E. unfold camera_start_stream in E.
    destruct (Device.start_stream (_camera self)) as [[|] d];
      [destruct wait|]; injection E as <- <-; simpl in Hi; congruence.
  - unfold stop_streaming, camera_stop_stream, Device.stop_stream in *.
    destruct (Device.state (_camera self)) eqn:Es; simpl in Hi;
      specialize (IH Hi); try discriminate IH.
    simpl. exact Es.
  - unfold capture_frame in E.
    destruct (Device.is_streaming (_camera self)); [|discriminate E].
    injection E as _ <-. exact (IH Hi).
  - exact (IH Hi).
Qed.

(** After [close] on a reachable object the native session is Closed. *)
Lemma close_closes_device (self : TinyThermalCamera) :
  reachable self -> Device.state (_camera (close self)) = Device.Closed.
Proof.
  intro H. apply reachable_uninitialized_closed.
  - now apply reach_close.
  - apply close_clears_flag.
Qed.

(** C7. From every state [close] leads to the session state Closed.  From
    Streaming it first stops the stream and then closes the device; from
    Opened it closes the device; in both cases the native session ends up
    Closed.  From Closed it changes nothing.  A second [close] right after
    the first changes nothing and performs no call on the device. *)
Theorem close_reaches_Closed_and_is_idempotent (self : TinyThermalCamera) :
  session_of (close self) = Device.Closed
  /\ close (close self) = close self
  /\ match session_of self with
     | Device.Streaming =>
         history (close self) = history self ++ [EvStopStream; EvClose]
         /\ Device.state (_camera (close self)) = Device.Closed
     | Device.Opened =>
         history (close self) = history self ++ [EvClose]
         /\ Device.state (_camera (close self)) = Device.Closed
     | Device.Closed => close self = self
     end.
Proof.
  split; [|split].
  - apply session_of_Closed, close_clears_flag.
  - apply close_uninitialized, close_clears_flag.
  - destruct (session_of self) eqn:E.
    + apply close_uninitialized. now apply session_of_Closed.
    + apply session_of_Opened in E as [Hi Hs].
      unfold close. rewrite Hi, Hs. split; reflexivity.
    + apply session_of_Streaming in E as [Hi Hs].
      unfold close. rewrite Hi, Hs.
      unfold camera_stop_stream.
      destruct (Device.stop_stream (_camera self)) as [ok d].
      split; [|reflexivity].
      simpl. rewrite <- app_assoc. reflexivity.
Qed.

(** C8. [open] on a session that is Opened or Streaming returns True and
    leaves the object exactly as it was: the device is not opened again (the
    history gains no event) and the session state, streaming included, is
    unchanged. *)
Theorem open_on_live_session_is_noop (self : TinyThermalCamera) :
  session_of self = Device.Opened \/ session_of self = Device.Streaming ->
  open self = (true, self)
  /\ history (snd (open self)) = history self
  /\ session_of (snd (open self)) = session_of self.
Proof.
  intro H.
  assert (Hi : _is_initialized self = true).
  { destruct H as [H|H].
    - now apply session_of_Opened in H.
    - now apply session_of_Streaming in H. }
  assert (E : open self = (true, self)) by (unfold open; now rewrite Hi).
  rewrite E. repeat split.
Qed.

Lemma open_on_live_session_is_noop_example :
  session_of streaming_camera = Device.Streaming
  /\ open streaming_camera = (true, streaming_camera).
Proof.
  split; [reflexivity|].
  exact (proj1 (open_on_live_session_is_noop streaming_camera (or_intror eq_refl))).
Defined.

(** C9, as the code has it. On an object that is not initialized
    [start_streaming] raises RuntimeError and does nothing.  Otherwise it
    calls the device once; it then sleeps 5 seconds exactly when the device
    reports success and [wait_for_stabilization] is True, and performs no
    delay when the flag is False or the stream did not start. *)
Theorem start_streaming_delay (wait_for_stabilization : bool) (self : TinyThermalCamera) :
  if _is_initialized self then
    exists ok self',
      start_streaming wait_for_stabilization self = Ok (ok, self')
      /\ ok = fst (Device.start_stream (_camera self))
      /\ history self' =
           history self ++
           EvStartStream :: (if ok && wait_for_stabilization then [EvSleep 5] else [])
  else
    start_streaming wait_for_stabilization self = Raise (RuntimeError not_initialized_msg).
Proof.
  destruct (_is_initialized self) eqn:Hi; unfold start_streaming; rewrite Hi;
    [|reflexivity].
  cbn [negb]. unfold camera_start_stream.
  destruct (Device.start_stream (_camera self)) as [ok d].
  destruct ok.
  - destruct wait_for_stabilization; eexists _, _; repeat split.
    simpl. rewrite <- app_assoc. reflexivity.
  - eexists _, _; repeat split.
Qed.

(** C9 as stated fails: with the default argument, [start_streaming] on an
    opened camera starts the stream and then sleeps 5 seconds. *)
Lemma start_streaming_default_sleeps :
  history opened_camera = []
  /\ exists self',
       start_streaming_default opened_camera = Ok (true, self')
       /\ history self' = [EvStartStream; EvSleep 5]
       /\ delays (history self') = [EvSleep 5].
Proof.
  split; [reflexivity|]. eexists. repeat split.
Qed.

(** C6, as the code has it. While the session is Opened but not Streaming,
    [capture_frame] raises RuntimeError: it hands out no frame at all, stale,
    partial or empty. *)
Theorem capture_frame_not_streaming_raises (self : TinyThermalCamera) :
  session_of self = Device.Opened ->
  capture_frame self = Raise (RuntimeError not_streaming_msg).
Proof.
  intro H. apply session_of_Opened in H as [_ Hs].
  unfold capture_frame. now rewrite Hs.
Qed.

Lemma capture_frame_not_streaming_raises_example :
  session_of opened_camera = Device.Opened
  /\ capture_frame opened_camera = Raise (RuntimeError not_streaming_msg).
Proof.
  split; [reflexivity|].
  exact (capture_frame_not_streaming_raises opened_camera eq_refl).
Defined.

(** C6 as stated fails: on an opened camera that is not streaming,
    [capture_frame] does not return the empty frame, it raises. *)
Lemma capture_frame_opened_raises :
  session_of opened_camera = Device.Opened
  /\ capture_frame opened_camera = Raise (RuntimeError not_streaming_msg)
  /\ forall r, capture_frame opened_camera <> Ok r.
Proof.
  split; [reflexivity|]. split; [reflexivity|]. intros r H. discriminate H.
Qed.

(** C10. While the device is streaming, [capture_frame] returns a pair in
    which each component depends only on its own frame: [None] when the frame
    got from the device has size zero, that very frame when its size is
    positive.  So no array of size zero is ever returned. *)
Theorem capture_frame_normalizes_empty_frames (self : TinyThermalCamera) :
  Device.is_streaming (_camera self) = true ->
  exists temp_frame image_frame self',
    capture_frame self = Ok ((temp_frame, image_frame), self')
    /\ (size (Device.get_temperature_frame (_camera self)) = 0 -> temp_frame = None)
    /\ (0 < size (Device.get_temperature_frame (_camera self)) ->
        temp_frame = Some (Device.get_temperature_frame (_camera self)))
    /\ (size (Device.get_image_frame (_camera self)) = 0 -> image_frame = None)
    /\ (0 < size (Device.get_image_frame (_camera self)) ->
        image_frame = Some (Device.get_image_frame (_camera self)))
    /\ (forall a, temp_frame = Some a -> 0 < size a)
    /\ (forall a, image_frame = Some a -> 0 < size a).
Proof.
  intro Hs. unfold capture_frame. rewrite Hs. cbn [negb].
  cbn [_camera emit].
  set (tf := Device.get_temperature_frame (_camera self)).
  set (imf := Device.get_image_frame (_camera self)).
  eexists _, _, _. split; [reflexivity|].
  destruct (Nat.ltb_spec 0 (size tf)) as [Ht|Ht],
           (Nat.ltb_spec 0 (size imf)) as [Hi|Hi];
    repeat split; intros; try reflexivity; try lia; try congruence.
Qed.

Lemma capture_frame_normalizes_empty_frames_example :
  Device.is_streaming (_camera streaming_camera) = true
  /\ exists self',
       capture_frame streaming_camera = Ok ((Some example_frame, None), self').
Proof.
  split; [reflexivity|].
  destruct (capture_frame_normalizes_empty_frames streaming_camera eq_refl)
    as (t & i & self' & E & _ & Ht & Hi & _).
  exists self'. rewrite E, (Ht ltac:(vm_compute; lia)), (Hi eq_refl). reflexivity.
Defined.

(** A whole session on a present device: open, start without waiting,
    capture, close.  The stream is stopped before the device is closed. *)
Example session_run :
  let s0 := fresh true example_frame empty in
  let s1 := snd (open s0) in
  exists s2 frames s3,
    start_streaming false s1 = Ok (true, s2)
    /\ capture_frame s2 = Ok (frames, s3)
    /\ frames = (Some example_frame, None)
    /\ history (close s3)
       = [EvOpen; EvStartStream; EvGetTemperatureFrame; EvGetImageFrame;
          EvStopStream; EvClose]
    /\ session_of (close s3) = Device.Closed.
Proof. eexists _, _, _. repeat split. Qed.

(** ** More on the session lifecycle *)

(** [open] returns True exactly when the object is open afterwards, and it
    asks the device at most once: once when the object was not open, never
    when it was. *)
Theorem open_returns_is_open (self : TinyThermalCamera) :
  fst (open self) = is_open (snd (open self))
  /\ history (snd (open self))
     = history self ++ (if is_open self then [] else [EvOpen]).
Proof.
  unfold open, is_open, camera_open.
  destruct (_is_initialized self) eqn:Hi.
  - simpl. rewrite Hi, app_nil_r. split; reflexivity.
  - destruct (Device.open (_camera self)) as [[|] d]; simpl.
    + split; reflexivity.
    + rewrite Hi. split; reflexivity.
Qed.

(** On every reachable object the flag [_is_initialized] tells whether the
    native session is open. *)
Lemma reachable_flag_is_open (self : TinyThermalCamera) :
  reachable self -> _is_initialized self = Device.is_open (_camera self).
Proof.
  induction 1 as [p t i | self _ IH | self _ IH | wait self ok self' _ IH E
                  | self _ IH | self frames self' _ IH E | self t i _ IH].
  - reflexivity.
  - unfold open, camera_open, Device.open, Device.is_open in *.
    destruct (_is_initialized self) eqn:Hi; [simpl; now rewrite Hi|].
    destruct (Device.state (_camera self)) eqn:Es; try discriminate IH.
    destruct (Device.present (_camera self)); simpl; [reflexivity|].
    now rewrite Hi, Es.
  - unfold close. destruct (_is_initialized self) eqn:Hi; [reflexivity|].
    now rewrite Hi.
  - unfold start_streaming in E.
    destruct (_is_initialized self) eqn:Hi; [|discriminate E].
    cbn [negb] in E. unfold camera_start_stream, Device.start_stream in E.
    unfold Device.is_open in IH.
    destruct (Device.state (_camera self)) eqn:Es; try discriminate IH;
      [destruct wait|]; injection E as <- <-; simpl;
      unfold Device.is_open; simpl; rewrite ?Hi, ?Es; reflexivity.
  - unfold stop_streaming, camera_stop_stream, Device.stop_stream, Device.is_open in *.
    destruct (Device.state (_camera self)) eqn:Es; simpl; rewrite ?Es; exact IH.
  - unfold capture_frame in E.
    destruct (Device.is_streaming (_camera self)); [|discriminate E].
    injection E as _ <-. exact IH.
  - exact IH.
Qed.

(** Whatever a caller does through the public methods, and whenever the
    driver refreshes its frames, the session state seen through the
    properties [is_open] and [is_streaming] is the state of the native
    session. *)
Theorem reachable_session_agrees (self : TinyThermalCamera) :
  reachable self -> session_of self = Device.state (_camera self).
Proof.
  intro H. apply reachable_flag_is_open in H.
  unfold session_of, is_open, is_streaming, Device.is_streaming.
  unfold Device.is_open in H. rewrite H.
  destruct (Device.state (_camera self)); reflexivity.
Qed.

Lemma reachable_session_agrees_example :
  reachable (snd (open (fresh true example_frame empty)))
  /\ session_of (snd (open (fresh true example_frame empty))) = Device.Opened.
Proof.
  assert (R : reachable (snd (open (fresh true example_frame empty))))
    by (apply reach_open, reach_fresh).
  split; [exact R|].
  rewrite (reachable_session_agrees _ R). reflexivity.
Defined.

(** Once [start_streaming] has returned True, the object is streaming and
    [capture_frame] does not raise. *)
Theorem capture_after_start_streaming
  (wait : bool) (self self' : TinyThermalCamera) :
  start_streaming wait self = Ok (true, self') ->
  session_of self' = Device.Streaming
  /\ exists fr self'', capture_frame self' = Ok (fr, self'').
Proof.
  intro E. unfold start_streaming in E.
  destruct (_is_initialized self) eqn:Hi; [|discriminate E].
  cbn [negb] in E. unfold camera_start_stream, Device.start_stream in E.
  assert (Hs : _is_initialized self' = true
               /\ Device.is_streaming (_camera self') = true).
  { destruct (Device.state (_camera self)) eqn:Es;
      try (injection E as E _; discriminate E).
    destruct wait; injection E as <-; simpl; split; assumption || reflexivity. }
  destruct Hs as [Hi' Hs]. split.
  - apply session_of_Streaming. split; assumption.
  - unfold capture_frame. rewrite Hs. cbn [negb]. eexists _, _. reflexivity.
Qed.

Lemma capture_after_start_streaming_example :
  exists self', start_streaming false opened_camera = Ok (true, self')
                /\ session_of self' = Device.Streaming.
Proof.
  eexists. split; [reflexivity|].
  exact (proj1 (capture_after_start_streaming false opened_camera _ eq_refl)).
Defined.

(** ** The context manager *)

(** A [with] block on the camera, whatever its body does with the object and
    whether it returns or raises: when [open] fails the body does not run,
    RuntimeError is raised and the object is not open; otherwise the outcome
    is the body's, and afterwards the object is closed. *)
Theorem with_camera_closes {A : Type} (self : TinyThermalCamera)
  (body : TinyThermalCamera -> result A * TinyThermalCamera) :
  is_open (snd (with_camera self body)) = false
  /\ if fst (open self)
     then with_camera self body
          = (fst (body (snd (open self))), close (snd (body (snd (open self)))))
     else with_camera self body
          = (Raise (RuntimeError open_failed_msg), snd (open self)).
Proof.
  unfold with_camera, __enter__, __exit__.
  assert (Hop : fst (open self) = false -> is_open (snd (open self)) = false).
  { unfold open, camera_open, is_open.
    destruct (_is_initialized self) eqn:Hi; [discriminate|].
    destruct (Device.open (_camera self)) as [[|] d]; simpl;
      [discriminate | intros _; exact Hi]. }
  destruct (open self) as [ok self1]; simpl in *.
  destruct ok; simpl.
  - destruct (body self1) as [r self2]; simpl. split; [|reflexivity].
    apply close_clears_flag.
  - split; [exact (Hop eq_refl) | reflexivity].
Qed.

(** ** The convenience functions *)

(** [quick_capture] in closed form.  Without the extension module it does
    nothing and returns (None, None).  When the device cannot be opened it
    has only tried to open it, and returns (None, None).  Otherwise it
    opens, starts the stream, sleeps 5 seconds, reads both frames, stops the
    stream and closes, and returns each frame of positive size, None for a
    frame of size zero.  In every case the native camera is left Closed or
    untouched. *)
Theorem quick_capture_spec (module_available : bool) (hw : Device.t) (log : list event) :
  quick_capture module_available hw log =
  if module_available then
    if Device.present hw then
      ((if Nat.ltb 0 (size (Device.temperature_slot hw))
        then Some (Device.temperature_slot hw) else None,
        if Nat.ltb 0 (size (Device.image_slot hw))
        then Some (Device.image_slot hw) else None),
       (Device.with_state Device.Closed hw,
        log ++ [EvOpen; EvStartStream; EvSleep 5; EvGetTemperatureFrame;
                EvGetImageFrame; EvStopStream; EvClose]))
    else ((None, None), (Device.with_state Device.Closed hw, log ++ [EvOpen]))
  else ((None, None), (hw, log)).
Proof.
  destruct module_available; [|reflexivity].
  destruct hw as [st present temp image].
  unfold quick_capture, __init__, with_camera, __enter__, open, camera_open,
    Device.open.
  destruct present; simpl; [|reflexivity].
  rewrite <- !app_assoc. reflexivity.
Qed.

(** [quick_temperature_at_point(x, y)] gives the point temperature of the
    captured frame exactly when the module is there, the first session
    captured a temperature frame of positive size, and the device could be
    opened a second time; in every other case it gives None.  The frame is
    read during the first session only; the second session opens and closes
    the device without reading it. *)
Theorem quick_temperature_at_point_spec (temp_to_celsius : Z -> Q)
  (module_available : bool) (hw1 hw2 : Device.t) (log : list event) (x y : Z) :
  fst (quick_temperature_at_point temp_to_celsius module_available hw1 hw2 log x y)
  = (if module_available && Device.present hw1
        && Nat.ltb 0 (size (Device.temperature_slot hw1))
        && Device.present hw2
     then get_point_temperature temp_to_celsius (Device.temperature_slot hw1) x y
     else None)
  /\ snd (snd (quick_temperature_at_point temp_to_celsius module_available
                 hw1 hw2 log x y))
     = log
       ++ (if module_available then
             if Device.present hw1 then
               [EvOpen; EvStartStream; EvSleep 5; EvGetTemperatureFrame;
                EvGetImageFrame; EvStopStream; EvClose]
               ++ (if Nat.ltb 0 (size (Device.temperature_slot hw1)) then
                     if Device.present hw2 then [EvOpen; EvClose] else [EvOpen]
                   else [])
             else [EvOpen]
           else []).
Proof.
  destruct module_available; [|simpl; now rewrite app_nil_r].
  destruct hw1 as [st1 present1 temp1 image1].
  unfold quick_temperature_at_point, quick_capture, __init__, with_camera,
    __enter__, open, camera_open, Device.open.
  destruct present1; [|split; reflexivity].
  cbn -[Nat.ltb size get_point_temperature].
  destruct (Nat.ltb 0 (size temp1));
    [|rewrite <- !app_assoc; split; reflexivity].
  destruct hw2 as [st2 present2 temp2 image2].
  destruct present2; cbn -[get_point_temperature];
    rewrite <- !app_assoc; split; reflexivity.
Qed.

(** ** More on temperatures *)

(** On a well-formed frame [get_temperature_celsius] either returns an array
    of the same shape whose every pixel is the calibration of the raw pixel
    at the same place, which happens exactly for a frame with at least one
    pixel, or raises ValueError, which happens exactly for a zero-size
    frame. *)
Theorem get_temperature_celsius_cases (temp_to_celsius : Z -> Q) (frame : ndarray Z) :
  wf frame ->
  match get_temperature_celsius temp_to_celsius frame with
  | Ok temp_celsius =>
      0 < size frame
      /\ nrows temp_celsius = nrows frame /\ ncols temp_celsius = ncols frame
      /\ wf temp_celsius
      /\ forall x y, x < ncols frame -> y < nrows frame ->
           pixel (temp_to_celsius 0%Z) temp_celsius x y
           = temp_to_celsius (pixel 0%Z frame x y)
  | Raise e => e = ValueError /\ size frame = 0
  end.
Proof.
  intro Hwf. destruct (Nat.eq_dec (size frame) 0) as [E|Hne].
  - rewrite (get_temperature_celsius_empty temp_to_celsius frame E). now split.
  - assert (Hpos : 0 < size frame) by lia.
    destruct (get_temperature_celsius_elementwise temp_to_celsius frame Hwf Hpos)
      as (c & -> & Hr & Hc & Hwfc & Hpix).
    repeat split; try assumption. intros x y _ _. apply Hpix.
Qed.

Lemma get_temperature_celsius_cases_example :
  wf example_frame
  /\ exists temp_celsius,
       get_temperature_celsius whole_degrees example_frame = Ok temp_celsius
       /\ nrows temp_celsius = 3 /\ ncols temp_celsius = 4.
Proof.
  split; [reflexivity|].
  pose proof (get_temperature_celsius_cases whole_degrees example_frame eq_refl) as H.
  destruct (get_temperature_celsius whole_degrees example_frame) as [c|e].
  - exists c. destruct H as (_ & Hr & Hc & _). repeat split; assumption.
  - destruct H as [_ H]. discriminate H.
Defined.

(** On a frame with at least one pixel, the entry 'range' of
    [get_temperature_stats] is the value of [find_hotspot] minus the value
    of [find_coldspot]; the coldspot is not warmer than the hotspot, and the
    range is not negative. *)
Theorem stats_range_is_hot_minus_cold (temp_to_celsius : Z -> Q) (frame : ndarray Z) :
  wf frame -> 0 < size frame ->
  exists hot max_temp cold min_temp st,
    find_hotspot temp_to_celsius frame = Ok (hot, max_temp)
    /\ find_coldspot temp_to_celsius frame = Ok (cold, min_temp)
    /\ get_temperature_stats temp_to_celsius frame = Ok st
    /\ stats_range st = (max_temp - min_temp)%Q
    /\ (min_temp <= max_temp)%Q
    /\ (0 <= stats_range st)%Q.
Proof.
  intros Hwf Hpos.
  destruct (locate_spec Qgtb Qgtb_irrefl Qgtb_keeps Qgtb_passes
              temp_to_celsius frame Hwf Hpos)
    as (x & y & v & hd & tl & Hhot & _ & _ & _ & Emap & Hv & Hall & _).
  destruct (locate_spec Qltb Qltb_irrefl Qltb_keeps Qltb_passes
              temp_to_celsius frame Hwf Hpos)
    as (x' & y' & v' & hd' & tl' & Hcold & Hx' & Hy' & Hpix' & Emap' & Hv' & _).
  rewrite Emap in Emap'. injection Emap' as <- <-.
  destruct (get_temperature_stats_nonempty temp_to_celsius frame hd tl Hpos Emap)
    as (st & Hst & _ & _ & Hrange).
  assert (Hle : (v' <= v)%Q).
  { rewrite Hpix'. apply Qltb_ge. exact (Hall x' y' Hx' Hy'). }
  exists (x, y), v, (x', y'), v', st.
  rewrite find_hotspot_locate, find_coldspot_locate.
  unfold Qmax2, Qmin2 in Hrange. rewrite <- Hv, <- Hv' in Hrange.
  repeat split; try assumption.
  rewrite Hrange. unfold Qminus. rewrite <- (Qplus_opp_r v').
  apply Qplus_le_compat; [exact Hle | apply Qle_refl].
Qed.

Lemma stats_range_is_hot_minus_cold_example :
  wf example_frame /\ 0 < size example_frame
  /\ exists st,
       get_temperature_stats whole_degrees example_frame = Ok st
       /\ (0 <= stats_range st)%Q.
Proof.
  split; [reflexivity|]. split; [vm_compute; lia|].
  destruct (stats_range_is_hot_minus_cold whole_degrees example_frame eq_refl)
    as (hot & mx & cold & mn & st & _ & _ & Hst & _ & _ & Hpos);
    [vm_compute; lia|].
  exists st. split; assumption.
Defined.

(** [find_hotspot] and [find_coldspot] point at the same pixel only on a
    frame of uniform temperature, and that pixel is then (0, 0). *)
Theorem hotspot_is_coldspot_only_if_uniform
  (temp_to_celsius : Z -> Q) (frame : ndarray Z) (p : nat * nat) (max_temp min_temp : Q) :
  wf frame -> 0 < size frame ->
  find_hotspot temp_to_celsius frame = Ok (p, max_temp) ->
  find_coldspot temp_to_celsius frame = Ok (p, min_temp) ->
  p = (0, 0)
  /\ forall x y, x < ncols frame -> y < nrows frame ->
       (temp_to_celsius (pixel 0%Z frame x y) == max_temp)%Q.
Proof.
  intros Hwf Hpos Hhot Hcold.
  destruct (locate_spec Qgtb Qgtb_irrefl Qgtb_keeps Qgtb_passes
              temp_to_celsius frame Hwf Hpos)
    as (x & y & v & hd & tl & Hloc & Hx & Hy & Hpix & _ & _ & Hall & Hfirst).
  destruct (locate_spec Qltb Qltb_irrefl Qltb_keeps Qltb_passes
              temp_to_celsius frame Hwf Hpos)
    as (x' & y' & v' & hd' & tl' & Hloc' & _ & _ & Hpix' & _ & _ & Hall' & _).
  rewrite find_hotspot_locate, Hloc in Hhot.
  rewrite find_coldspot_locate, Hloc' in Hcold.
  injection Hhot as <- <-. injection Hcold as Hy' Hx' <-. subst x' y'.
  assert (Huni : forall a b, a < ncols frame -> b < nrows frame ->
            (temp_to_celsius (pixel 0%Z frame a b) == v)%Q).
  { intros a b Ha Hb. apply Qle_antisym.
    - apply Qltb_ge. exact (Hall a b Ha Hb).
    - rewrite Hpix at 1. rewrite <- Hpix'. apply Qltb_ge. exact (Hall' a b Ha Hb). }
  split; [|exact Huni].
  assert (Hnc : 0 < ncols frame) by lia.
  assert (Hnr : 0 < nrows frame) by lia.
  destruct (Nat.eq_dec y 0) as [->|Hy0].
  - destruct (Nat.eq_dec x 0) as [->|Hx0]; [reflexivity|].
    exfalso.
    assert (Hb : row_major_before 0 0 x 0) by (right; lia).
    pose proof (Hfirst 0 0 Hnc Hnr Hb) as Hlt. apply Qltb_lt in Hlt.
    rewrite (Huni 0 0 Hnc Hnr) in Hlt. exact (Qlt_irrefl _ Hlt).
  - exfalso.
    assert (Hb : row_major_before 0 0 x y) by (left; lia).
    pose proof (Hfirst 0 0 Hnc Hnr Hb) as Hlt. apply Qltb_lt in Hlt.
    rewrite (Huni 0 0 Hnc Hnr) in Hlt. exact (Qlt_irrefl _ Hlt).
Qed.

Lemma hotspot_is_coldspot_only_if_uniform_example :
  find_hotspot whole_degrees (mk_ndarray 2 2 [5; 5; 5; 5]%Z) = Ok ((0, 0), 5%Q)
  /\ find_coldspot whole_degrees (mk_ndarray 2 2 [5; 5; 5; 5]%Z) = Ok ((0, 0), 5%Q)
  /\ (whole_degrees (pixel 0%Z (mk_ndarray 2 2 [5; 5; 5; 5]%Z) 1 1) == 5)%Q.
Proof.
  split; [reflexivity|]. split; [reflexivity|].
  refine (proj2 (hotspot_is_coldspot_only_if_uniform whole_degrees
                   (mk_ndarray 2 2 [5; 5; 5; 5]%Z) (0, 0) 5%Q 5%Q
                   eq_refl _ eq_refl eq_refl) 1 1 _ _);
    vm_compute; lia.
Defined.

(** ** The demo's analysis of a frame *)

Lemma in_frame_iff (frame : ndarray Z) (x y : Z) :
  in_frame frame x y = true
  <-> (0 <= x < width frame /\ 0 <= y < height frame)%Z.
Proof.
  unfold in_frame. rewrite !andb_true_iff, !Z.leb_le, !Z.ltb_lt. lia.
Qed.

Lemma get_point_temp_success (conv : Z -> Q) (frame : ndarray Z) (x y : Z) :
  fst (get_point_temp conv frame x y) = in_frame frame x y.
Proof.
  unfold get_point_temp. destruct (in_frame frame x y); reflexivity.
Qed.

Lemma get_line_temp_success (conv : Z -> Q) (raster : Z -> Z -> Z -> Z -> list (Z * Z))
  (frame : ndarray Z) (x1 y1 x2 y2 : Z) :
  fst (fst (fst (get_line_temp conv raster frame x1 y1 x2 y2)))
  = in_frame frame x1 y1 && in_frame frame x2 y2.
Proof.
  unfold get_line_temp.
  destruct (in_frame frame x1 y1 && in_frame frame x2 y2); [|reflexivity].
  destruct (max_min_avg _) as [[mx mn] avg]. reflexivity.
Qed.

Lemma get_rect_temp_success (conv : Z -> Q) (frame : ndarray Z) (x y w h : Z) :
  fst (fst (fst (get_rect_temp conv frame x y w h))) = true
  <-> (0 < w /\ 0 < h /\ 0 <= x /\ 0 <= y
       /\ x + w <= width frame /\ y + h <= height frame)%Z.
Proof.
  unfold get_rect_temp.
  destruct ((0 <? w) && (0 <? h) && (0 <=? x) && (0 <=? y)
            && (x + w <=? width frame) && (y + h <=? height frame))%Z eqn:E.
  - destruct (max_min_avg _) as [[mx mn] avg]. simpl.
    rewrite !andb_true_iff, !Z.ltb_lt, !Z.leb_le in E. tauto.
  - simpl. split; [discriminate|]. intro H.
    assert (E' : ((0 <? w) && (0 <? h) && (0 <=? x) && (0 <=? y)
                  && (x + w <=? width frame) && (y + h <=? height frame))%Z = true).
    { rewrite !andb_true_iff, !Z.ltb_lt, !Z.leb_le. tauto. }
    congruence.
Qed.

(** On a frame with at least one pixel, the demo's point query at the centre
    and its line query across the middle row are inside the frame and
    succeed.  Its rectangle query succeeds exactly when the frame is at least
    4 pixels wide and 4 pixels high: on a smaller frame the side
    [min(50, width//4, height//4)] is zero. *)
Theorem analyze_temperatures_queries
  (temp_to_celsius : Z -> Q) (rasterize : Z -> Z -> Z -> Z -> list (Z * Z))
  (temp_frame : ndarray Z) :
  0 < nrows temp_frame -> 0 < ncols temp_frame ->
  exists point rect line,
    analyze_temperatures temp_to_celsius rasterize temp_frame = (point, rect, line)
    /\ fst point = true
    /\ fst (fst (fst line)) = true
    /\ (fst (fst (fst rect)) = true
        <-> 4 <= ncols temp_frame /\ 4 <= nrows temp_frame).
Proof.
  intros Hr Hc. unfold analyze_temperatures.
  eexists _, _, _. split; [reflexivity|].
  assert (Hw : (0 < width temp_frame)%Z) by (unfold width; lia).
  assert (Hh : (0 < height temp_frame)%Z) by (unfold height; lia).
  split; [|split].
  - rewrite get_point_temp_success. apply in_frame_iff.
    Z.to_euclidean_division_equations. lia.
  - rewrite get_line_temp_success. apply andb_true_iff.
    split; apply in_frame_iff; Z.to_euclidean_division_equations; lia.
  - rewrite get_rect_temp_success.
    assert (Hw4 : (4 <= width temp_frame)%Z <-> 4 <= ncols temp_frame)
      by (unfold width; lia).
    assert (Hh4 : (4 <= height temp_frame)%Z <-> 4 <= nrows temp_frame)
      by (unfold height; lia).
    rewrite <- Hw4, <- Hh4.
    generalize dependent (width temp_frame).
    generalize dependent (height temp_frame).
    intros H Hh _ W Hw _.
    split; intro G; Z.to_euclidean_division_equations; lia.
Qed.

Lemma analyze_temperatures_queries_example :
  0 < nrows example_frame /\ 0 < ncols example_frame
  /\ exists point rect line,
       analyze_temperatures whole_degrees endpoints example_frame = (point, rect, line)
       /\ fst point = true /\ fst (fst (fst line)) = true.
Proof.
  split; [vm_compute; lia|]. split; [vm_compute; lia|].
  destruct (analyze_temperatures_queries whole_degrees endpoints example_frame)
    as (point & rect & line & E & Hp & Hl & _); try (vm_compute; lia).
  exists point, rect, line. repeat split; assumption.
Defined.

(** ** Library search paths *)

Module LoaderFacts.
Import Loader.

Lemma prefix_append (d r : string) : String.prefix d (d ++ r) = true.
Proof.
  induction d as [|a d IH]; simpl.
  - destruct r; reflexivity.
  - destruct (Ascii.ascii_dec a a) as [_|N]; [exact IH | now elim N].
Qed.

Lemma contains_of_prefix (needle hay : string) :
  String.prefix needle hay = true -> contains needle hay = true.
Proof.
  intro H. destruct hay; cbn [contains]; now rewrite H.
Qed.

Lemma contains_prefix (d r : string) : contains d (d ++ r) = true.
Proof. apply contains_of_prefix, prefix_append. Qed.

Lemma contains_app (d pre post : string) : contains d (pre ++ d ++ post) = true.
Proof.
  induction pre as [|a pre IH].
  - exact (contains_prefix d post).
  - cbn [String.append contains]. rewrite IH. apply orb_true_r.
Qed.

Lemma append_empty_r (s : string) : (s ++ "")%string = s.
Proof.
  induction s as [|a s IH]; simpl; [reflexivity | now rewrite IH].
Qed.

Lemma append_assoc (s t u : string) : ((s ++ t) ++ u)%string = (s ++ t ++ u)%string.
Proof.
  induction s as [|a s IH]; simpl; [reflexivity | now rewrite IH].
Qed.

Lemma contains_refl (d : string) : contains d d = true.
Proof.
  rewrite <- (append_empty_r d) at 2. apply contains_prefix.
Qed.

Lemma environ_get_set (env : environ) (key value default : string) :
  environ_get (environ_set env key value) key default = value.
Proof.
  unfold environ_get, environ_set. now rewrite String.eqb_refl.
Qed.

Lemma environ_set_other (env : environ) (key value k : string) :
  k <> key -> environ_set env key value k = env k.
Proof.
  intro H. unfold environ_set. apply String.eqb_neq in H. now rewrite H.
Qed.

Lemma prepend_path_fixed (h : host) (var dir : string) (st : os_state) :
  contains dir (environ_get (os_environ st) var "") = true ->
  prepend_path h var dir st = st.
Proof.
  intro H. unfold prepend_path. now rewrite H.
Qed.

Lemma prepend_path_contains (h : host) (var dir : string) (st : os_state) :
  contains dir (environ_get (os_environ (prepend_path h var dir st)) var "") = true.
Proof.
  unfold prepend_path.
  destruct (contains dir (environ_get (os_environ st) var "")) eqn:E; simpl.
  - exact E.
  - rewrite environ_get_set. apply contains_prefix.
Qed.

Lemma prepend_path_keeps (h : host) (var dir : string) (st : os_state) :
  (exists added,
     environ_get (os_environ (prepend_path h var dir st)) var ""
     = (added ++ environ_get (os_environ st) var "")%string)
  /\ (forall k, k <> var ->
        os_environ (prepend_path h var dir st) k = os_environ st k)
  /\ dll_directories (prepend_path h var dir st) = dll_directories st
  /\ dll_directory (prepend_path h var dir st) = dll_directory st.
Proof.
  unfold prepend_path.
  destruct (contains dir (environ_get (os_environ st) var "")); simpl.
  - repeat split. now exists ""%string.
  - repeat split.
    + exists (dir ++ pathsep h)%string. rewrite environ_get_set.
      symmetry. apply append_assoc.
    + intros k Hk. now apply environ_set_other.
Qed.

Lemma add_dll_directory_environ (h : host) (dir : string) (st : os_state) :
  os_environ (add_dll_directory h dir st) = os_environ st.
Proof.
  unfold add_dll_directory.
  destruct (has_add_dll_directory h); [|reflexivity].
  destruct (add_dll_directory_fails h dir); reflexivity.
Qed.

Lemma prepend_path_again (h : host) (var dir : string) (st st' : os_state) :
  os_environ st' = os_environ (prepend_path h var dir st) ->
  prepend_path h var dir st' = st'.
Proof.
  intro E. apply prepend_path_fixed. rewrite E. apply prepend_path_contains.
Qed.

Lemma setup_windows_dlls_missing (h : host) (module_dir : string) (st : os_state) :
  path_exists h (path_join h module_dir ["dlls"%string]) = false ->
  setup_windows_dlls h module_dir st = (false, st).
Proof.
  intro E. unfold setup_windows_dlls. now rewrite E.
Qed.

Lemma setup_windows_dlls_present (h : host) (module_dir : string) (st : os_state) :
  path_exists h (path_join h module_dir ["dlls"%string]) = true ->
  fst (setup_windows_dlls h module_dir st) = true
  /\ os_environ (snd (setup_windows_dlls h module_dir st))
     = os_environ (prepend_path h "PATH"
                     (path_absolute h (path_join h module_dir ["dlls"%string])) st).
Proof.
  intro E. unfold setup_windows_dlls. rewrite E. cbn [negb fst snd].
  split; [reflexivity|].
  destruct (set_dll_directory_fails h); cbn [os_environ];
    apply add_dll_directory_environ.
Qed.

Lemma setup_linux_libraries_true (h : host) (module_dir : string) (st : os_state) :
  fst (setup_linux_libraries h module_dir st) = true.
Proof.
  unfold setup_linux_libraries.
  destruct (path_exists h _); [|reflexivity].
  destruct (contains _ _); [reflexivity|].
  destruct (String.eqb _ _); reflexivity.
Qed.

Lemma setup_linux_libraries_contains (h : host) (module_dir : string) (st : os_state) :
  path_exists h (path_join h module_dir ["libs"%string]) = true ->
  contains (path_absolute h (path_join h module_dir ["libs"%string]))
    (environ_get (os_environ (snd (setup_linux_libraries h module_dir st)))
                 "LD_LIBRARY_PATH" "") = true.
Proof.
  intro E. unfold setup_linux_libraries. rewrite E.
  destruct (contains _ (environ_get (os_environ st) _ _)) eqn:Ec; cbn [negb snd].
  - exact Ec.
  - destruct (String.eqb _ ""); cbn [negb snd os_environ]; rewrite environ_get_set.
    + apply contains_refl.
    + apply contains_prefix.
Qed.

Lemma setup_linux_libraries_fixed (h : host) (module_dir : string) (st : os_state) :
  contains (path_absolute h (path_join h module_dir ["libs"%string]))
    (environ_get (os_environ st) "LD_LIBRARY_PATH" "") = true ->
  setup_linux_libraries h module_dir st = (true, st).
Proof.
  intro Ec. unfold setup_linux_libraries.
  destruct (path_exists h _); [|reflexivity].
  now rewrite Ec.
Qed.

End LoaderFacts.

Module LoaderSpec.
Import Loader LoaderFacts.

(** The wrapper's [_setup_dll_path].  Off Windows, or when the DLL directory
    of the machine's architecture does not exist, it changes nothing.
    Otherwise the directory occurs in PATH afterwards.  In every case the
    former PATH is kept as the tail of the new one, no other variable
    changes, and a second run leaves the environment as the first run left
    it. *)
Theorem setup_dll_path_spec (h : host) (module_dir : string) (st : os_state) :
  os_environ (_setup_dll_path h module_dir (_setup_dll_path h module_dir st))
  = os_environ (_setup_dll_path h module_dir st)
  /\ (exists added,
        environ_get (os_environ (_setup_dll_path h module_dir st)) "PATH" ""
        = (added ++ environ_get (os_environ st) "PATH" "")%string)
  /\ (forall k, k <> "PATH"%string ->
        os_environ (_setup_dll_path h module_dir st) k = os_environ st k)
  /\ (if String.eqb (system h) "windows"
         && path_exists h (wrapper_dll_dir h module_dir)
      then contains (wrapper_dll_dir h module_dir)
             (environ_get (os_environ (_setup_dll_path h module_dir st)) "PATH" "")
           = true
      else _setup_dll_path h module_dir st = st).
Proof.
  unfold _setup_dll_path.
  destruct (String.eqb (system h) "windows") eqn:Esys; simpl;
    [|repeat split; now exists ""%string].
  set (d := wrapper_dll_dir h module_dir).
  destruct (path_exists h d) eqn:Eex; [|repeat split; now exists ""%string].
  pose proof (prepend_path_contains h "PATH" d st) as Hc.
  pose proof (prepend_path_keeps h "PATH" d st) as (Hadd & Hother & _).
  rewrite !add_dll_directory_environ.
  split; [|split; [|split]].
  - rewrite prepend_path_fixed; rewrite add_dll_directory_environ.
    + reflexivity.
    + exact Hc.
  - exact Hadd.
  - exact Hother.
  - exact Hc.
Qed.

(** The test [dll_dir not in current_path] is a substring test: when the
    directory name occurs anywhere in PATH, even as a part of a longer
    entry, [_setup_dll_path] leaves the environment alone. *)
Theorem setup_dll_path_substring (h : host) (module_dir : string) (st : os_state)
  (before after : string) :
  os_environ st "PATH"%string
  = Some (before ++ wrapper_dll_dir h module_dir ++ after)%string ->
  os_environ (_setup_dll_path h module_dir st) = os_environ st.
Proof.
  intro HP. unfold _setup_dll_path.
  destruct (String.eqb (system h) "windows"); [|reflexivity].
  destruct (path_exists h (wrapper_dll_dir h module_dir)); [|reflexivity].
  rewrite add_dll_directory_environ, prepend_path_fixed; [reflexivity|].
  unfold environ_get. rewrite HP. apply contains_app.
Qed.

Lemma setup_dll_path_substring_example :
  wrapper_dll_dir windows_host "C:/app" = "C:/app/libs/win/x64/dll"%string
  /\ os_environ
       (_setup_dll_path windows_host "C:/app"
          (mkOs (fun k => if String.eqb k "PATH"
                          then Some "C:/app/libs/win/x64/dll_old"%string else None)
                [] None))
     = (fun k => if String.eqb k "PATH"
                 then Some "C:/app/libs/win/x64/dll_old"%string else None).
Proof.
  split; [reflexivity|].
  exact (setup_dll_path_substring windows_host "C:/app"
           (mkOs (fun k => if String.eqb k "PATH"
                           then Some "C:/app/libs/win/x64/dll_old"%string else None)
                 [] None)
           "" "_old" eq_refl).
Defined.

(** The package's [setup_library_search_path] returns False in one case
    only: on Windows when the package has no [dlls] directory, and then it
    has changed nothing.  A second run leaves the environment as the first
    run left it. *)
Theorem setup_library_search_path_spec (h : host) (module_dir : string) (st : os_state) :
  fst (setup_library_search_path h module_dir st)
  = negb (String.eqb (system h) "windows"
          && negb (path_exists h (path_join h module_dir ["dlls"%string])))
  /\ (if fst (setup_library_search_path h module_dir st) then True
      else snd (setup_library_search_path h module_dir st) = st)
  /\ os_environ (snd (setup_library_search_path h module_dir
                        (snd (setup_library_search_path h module_dir st))))
     = os_environ (snd (setup_library_search_path h module_dir st)).
Proof.
  unfold setup_library_search_path.
  destruct (String.eqb (system h) "windows") eqn:Ewin; cbn [andb].
  - destruct (path_exists h (path_join h module_dir ["dlls"%string])) eqn:Eex.
    + destruct (setup_windows_dlls_present h module_dir st Eex) as [Hf He].
      rewrite Hf. split; [reflexivity|]. split; [exact I|].
      destruct (setup_windows_dlls_present h module_dir
                  (snd (setup_windows_dlls h module_dir st)) Eex) as [_ He'].
      rewrite He', (prepend_path_again h "PATH" _ st _ He). reflexivity.
    + rewrite (setup_windows_dlls_missing h module_dir st Eex). cbn [fst snd negb].
      rewrite (setup_windows_dlls_missing h module_dir st Eex).
      repeat split.
  - destruct (String.eqb (system h) "linux"); [|repeat split].
    rewrite setup_linux_libraries_true. split; [reflexivity|]. split; [exact I|].
    destruct (path_exists h (path_join h module_dir ["libs"%string])) eqn:Eex.
    + rewrite (setup_linux_libraries_fixed h module_dir
                 (snd (setup_linux_libraries h module_dir st))
                 (setup_linux_libraries_contains h module_dir st Eex)).
      reflexivity.
    + unfold setup_linux_libraries. rewrite Eex. reflexivity.
Qed.

(** The package's [setup_linux_libraries] always returns True.  When the
    package has a [libs] directory, its absolute path occurs in
    LD_LIBRARY_PATH afterwards, the former value is kept as the tail of the
    new one, and a value that was unset or empty becomes that path alone,
    with no separator.  Without the directory nothing changes. *)
Theorem setup_linux_libraries_spec (h : host) (module_dir : string) (st : os_state) :
  fst (setup_linux_libraries h module_dir st) = true
  /\ (if path_exists h (path_join h module_dir ["libs"%string]) then
        let lib_dir_str := path_absolute h (path_join h module_dir ["libs"%string]) in
        let before := environ_get (os_environ st) "LD_LIBRARY_PATH" "" in
        let after :=
          environ_get (os_environ (snd (setup_linux_libraries h module_dir st)))
                      "LD_LIBRARY_PATH" "" in
        contains lib_dir_str after = true
        /\ (exists added, after = (added ++ before)%string)
        /\ (if String.eqb before "" then after = lib_dir_str else True)
      else snd (setup_linux_libraries h module_dir st) = st).
Proof.
  unfold setup_linux_libraries.
  destruct (path_exists h (path_join h module_dir ["libs"%string]));
    [|split; reflexivity].
  set (d := path_absolute h (path_join h module_dir ["libs"%string])).
  set (cur := environ_get (os_environ st) "LD_LIBRARY_PATH" "").
  destruct (contains d cur) eqn:Ec; cbn [negb].
  - split; [reflexivity|]. cbn [snd]. fold cur. rewrite Ec.
    split; [reflexivity|]. split; [now exists ""%string|].
    destruct (String.eqb_spec cur "") as [E|_]; [|exact I].
    rewrite E in Ec. destruct d; [first [exact E | symmetry; exact E] | discriminate Ec].
  - destruct (String.eqb_spec cur "") as [E|N]; cbn [negb fst snd os_environ];
      rewrite environ_get_set.
    + split; [reflexivity|]. split; [|split; [|reflexivity]].
      * apply contains_refl.
      * exists d. rewrite E. symmetry. apply append_empty_r.
    + split; [reflexivity|]. split; [apply contains_prefix|]. split; [|exact I].
      exists (d ++ pathsep h)%string. symmetry. apply append_assoc.
Qed.

(** The package's [setup_windows_dlls].  Without a [dlls] directory it
    returns False and changes nothing.  With one it returns True, the
    absolute path of the directory occurs in PATH afterwards with the former
    PATH kept as the tail, and the directory set through SetDllDirectoryW is
    that path unless the call failed, in which case it is unchanged. *)
Theorem setup_windows_dlls_spec (h : host) (module_dir : string) (st : os_state) :
  if path_exists h (path_join h module_dir ["dlls"%string]) then
    let dll_dir_str := path_absolute h (path_join h module_dir ["dlls"%string]) in
    let st' := snd (setup_windows_dlls h module_dir st) in
    fst (setup_windows_dlls h module_dir st) = true
    /\ contains dll_dir_str (environ_get (os_environ st') "PATH" "") = true
    /\ (exists added,
          environ_get (os_environ st') "PATH" ""
          = (added ++ environ_get (os_environ st) "PATH" "")%string)
    /\ dll_directory st'
       = (if set_dll_directory_fails h then dll_directory st else Some dll_dir_str)
  else setup_windows_dlls h module_dir st = (false, st).
Proof.
  destruct (path_exists h (path_join h module_dir ["dlls"%string])) eqn:Eex;
    [|now apply setup_windows_dlls_missing].
  destruct (setup_windows_dlls_present h module_dir st Eex) as [Hf He].
  cbn zeta. rewrite He.
  destruct (prepend_path_keeps h "PATH"
              (path_absolute h (path_join h module_dir ["dlls"%string])) st)
    as (Hadd & _ & _ & Hdir).
  split; [exact Hf|]. split; [apply prepend_path_contains|]. split; [exact Hadd|].
  unfold setup_windows_dlls. rewrite Eex. cbn [negb snd].
  destruct (set_dll_directory_fails h); cbn [dll_directory]; [|reflexivity].
  unfold add_dll_directory.
  destruct (has_add_dll_directory h); [|exact Hdir].
  destruct (add_dll_directory_fails h _); [exact Hdir | exact Hdir].
Qed.

End LoaderSpec.
